(** * VectorCloud remote control: a shallow embedding of
      [vectorcloud/flask_app/routes.py]

    The development models the class [RemoteControlVector] (the session that
    turns key and mouse events into motor commands and queues one-shot
    actions), the helper [remap_to_range] and the request handlers that call
    into the session.

    Conventions of the embedding:
    - Python numbers are exact rationals ([Q]); booleans used as numbers go
      through [b2q] ([True] is 1, [False] is 0).  Rounding of binary floating
      point is not modelled.
    - Python lists are Rocq lists; indexing and item assignment follow
      Python, negative indices and [IndexError] included.
    - The robot ([self.vector]) is an interface: a type class [Robot] whose
      methods are state transformers on the robot.
    - Methods of the session are computations in a small state and error
      monad over the pair of session and robot; a raised exception keeps the
      state reached when it was raised. *)

From Stdlib Require Import ZArith QArith Qround Lqa Bool Ascii String DecimalString.
From Stdlib Require Import Sorted Permutation Floats.
From stdpp Require Import base tactics list.

Local Open Scope string_scope.
Local Open Scope Z_scope.

(** ** Exceptions, outcomes and the session monad *)

Inductive exn : Type :=
| IndexError
| ValueError.

Inductive outcome (W A : Type) : Type :=
| Return (a : A) (w : W)
| Raise (e : exn) (w : W).

Arguments Return {W A} a w.
Arguments Raise {W A} e w.

Definition M (W A : Type) : Type := W -> outcome W A.

Definition ret {W A} (a : A) : M W A := fun w => Return a w.

Definition raise {W A} (e : exn) : M W A := fun w => Raise e w.

Definition bind {W A B} (m : M W A) (k : A -> M W B) : M W B :=
  fun w =>
    match m w with
    | Return a w' => k a w'
    | Raise e w' => Raise e w'
    end.

Notation "x <- m ;; k" := (bind m (fun x => k))
  (at level 100, m at next level, right associativity).
Notation "m ;;; k" := (bind m (fun _ => k))
  (at level 100, right associativity).

(** The state an outcome ends in, whether it returned or raised. *)
Definition final {W A} (o : outcome W A) : W :=
  match o with
  | Return _ w => w
  | Raise _ w => w
  end.

Definition returned {W A} (o : outcome W A) : bool :=
  match o with
  | Return _ _ => true
  | Raise _ _ => false
  end.

(** ** Python values *)

Definition b2q (b : bool) : Q := if b then 1%Q else 0%Q.

Definition Qltb (a b : Q) : bool := negb (Qle_bool b a).

(** [l[i]] with Python's negative indices. *)
Definition py_getitem {A} (l : list A) (i : Z) : option A :=
  if (0 <=? i) && (i <? Z.of_nat (length l)) then l !! Z.to_nat i
  else if (- Z.of_nat (length l) <=? i) && (i <? 0)
       then l !! Z.to_nat (Z.of_nat (length l) + i)
       else None.

(** [l[i] = v]; [None] stands for [IndexError]. *)
Definition py_setitem {A} (l : list A) (i : Z) (v : A) : option (list A) :=
  if (0 <=? i) && (i <? Z.of_nat (length l)) then Some (<[Z.to_nat i := v]> l)
  else if (- Z.of_nat (length l) <=? i) && (i <? 0)
       then Some (<[Z.to_nat (Z.of_nat (length l) + i) := v]> l)
       else None.

(** [l.index(x)] on a list of strings; [None] stands for [ValueError]. *)
Fixpoint py_index (l : list string) (x : string) : option Z :=
  match l with
  | [] => None
  | y :: l' =>
      if String.eqb y x then Some 0
      else match py_index l' x with
           | Some i => Some (i + 1)
           | None => None
           end
  end.

(** [x in l] on a list of strings. *)
Definition py_in (x : string) (l : list string) : bool :=
  existsb (String.eqb x) l.

(** [l.sort()] on a list of strings (code point order). *)
Fixpoint sort_insert (x : string) (l : list string) : list string :=
  match l with
  | [] => [x]
  | y :: l' => if String.leb x y then x :: y :: l' else y :: sort_insert x l'
  end.

Definition py_sort (l : list string) : list string :=
  foldr sort_insert [] l.

(** [str(n)] for a non-negative integer. *)
Definition str_nat (n : nat) : string :=
  NilZero.string_of_uint (Nat.to_uint n).

(** ** The robot interface *)

(** The two robot methods an action can name:
    [self.vector.say_text] and [self.vector.anim.play_animation]. *)
Inductive RobotFunc : Type :=
| say_text
| play_animation.

(** A queued action is the Python tuple [(func, args)]. *)
Definition Action : Type := RobotFunc * string.

Class Robot (R : Type) : Type := {
  (** [motors.set_wheel_motors(l, r, l_accel, r_accel)] *)
  set_wheel_motors : Q -> Q -> Q -> Q -> R -> R;
  (** [motors.set_lift_motor(v)] *)
  set_lift_motor : Q -> R -> R;
  (** [motors.set_head_motor(v)] *)
  set_head_motor : Q -> R -> R;
  (** [util.radians(head_angle_rad).degrees] *)
  head_angle_degrees : R -> Q;
  (** [func(args)] for [func] one of the two action methods; the result is
      the truth value of what the call returned *)
  call_action : RobotFunc -> string -> R -> bool * R;
  (** [anim.anim_list] *)
  anim_list : R -> list string
}.

(** ** The session *)

Record Session : Type := mkSession {
  drive_forwards : bool;
  drive_back : bool;
  turn_left : bool;
  turn_right : bool;
  lift_up : bool;
  lift_down : bool;
  head_up : bool;
  head_down : bool;
  go_fast : bool;
  go_slow : bool;
  is_mouse_look_enabled : bool;
  mouse_dir : Q;
  anim_names : list string;
  anim_index_for_key : list Z;
  action_queue : list Action;
  text_to_say : string
}.

Definition set_drive_forwards (v : bool) (s : Session) : Session :=
  let '(mkSession _ b c d e f g h i j k l m n o p) := s in
  mkSession v b c d e f g h i j k l m n o p.
Definition set_drive_back (v : bool) (s : Session) : Session :=
  let '(mkSession a _ c d e f g h i j k l m n o p) := s in
  mkSession a v c d e f g h i j k l m n o p.
Definition set_turn_left (v : bool) (s : Session) : Session :=
  let '(mkSession a b _ d e f g h i j k l m n o p) := s in
  mkSession a b v d e f g h i j k l m n o p.
Definition set_turn_right (v : bool) (s : Session) : Session :=
  let '(mkSession a b c _ e f g h i j k l m n o p) := s in
  mkSession a b c v e f g h i j k l m n o p.
Definition set_lift_up (v : bool) (s : Session) : Session :=
  let '(mkSession a b c d _ f g h i j k l m n o p) := s in
  mkSession a b c d v f g h i j k l m n o p.
Definition set_lift_down (v : bool) (s : Session) : Session :=
  let '(mkSession a b c d e _ g h i j k l m n o p) := s in
  mkSession a b c d e v g h i j k l m n o p.
Definition set_head_up (v : bool) (s : Session) : Session :=
  let '(mkSession a b c d e f _ h i j k l m n o p) := s in
  mkSession a b c d e f v h i j k l m n o p.
Definition set_head_down (v : bool) (s : Session) : Session :=
  let '(mkSession a b c d e f g _ i j k l m n o p) := s in
  mkSession a b c d e f g v i j k l m n o p.
Definition set_go_fast (v : bool) (s : Session) : Session :=
  let '(mkSession a b c d e f g h _ j k l m n o p) := s in
  mkSession a b c d e f g h v j k l m n o p.
Definition set_go_slow (v : bool) (s : Session) : Session :=
  let '(mkSession a b c d e f g h i _ k l m n o p) := s in
  mkSession a b c d e f g h i v k l m n o p.
Definition set_is_mouse_look_enabled (v : bool) (s : Session) : Session :=
  let '(mkSession a b c d e f g h i j _ l m n o p) := s in
  mkSession a b c d e f g h i j v l m n o p.
Definition set_mouse_dir (v : Q) (s : Session) : Session :=
  let '(mkSession a b c d e f g h i j k _ m n o p) := s in
  mkSession a b c d e f g h i j k v m n o p.
Definition set_anim_index_for_key (v : list Z) (s : Session) : Session :=
  let '(mkSession a b c d e f g h i j k l m _ o p) := s in
  mkSession a b c d e f g h i j k l m v o p.
Definition set_action_queue (v : list Action) (s : Session) : Session :=
  let '(mkSession a b c d e f g h i j k l m n _ p) := s in
  mkSession a b c d e f g h i j k l m n v p.
Definition set_text_to_say (v : string) (s : Session) : Session :=
  let '(mkSession a b c d e f g h i j k l m n o _) := s in
  mkSession a b c d e f g h i j k l m n o v.

(** [remap_to_range]: convert [x] (in [x_min..x_max]) to [out_min..out_max]. *)
Definition remap_to_range (x x_min x_max out_min out_max : Q) : Q :=
  if Qltb x x_min then out_min
  else if Qltb x_max x then out_max
  else
    let ratio := ((x - x_min) / (x_max - x_min))%Q in
    (out_min + ratio * (out_max - out_min))%Q.

(** [pick_speed]: the nested [if] of the source, branch for branch. *)
Definition pick_speed {A} (s : Session) (fast_speed mid_speed slow_speed : A) : A :=
  if go_fast s then
    if negb (go_slow s) then fast_speed else mid_speed
  else if go_slow s then slow_speed
  else mid_speed.

(** [ord(c)] *)
Definition ord (c : ascii) : Z := Z.of_nat (nat_of_ascii c).

(** Names hidden from the list of animations, and the default animation of
    each digit key, as written in [__init__]. *)
Definition bad_anim_names : list string :=
  ["ANIMATION_TEST"; "soundTestAnim"]%string.

Definition default_anims_for_keys : list string :=
  ["anim_turn_left_01";
   "anim_blackjack_victorwin_01";
   "anim_pounce_success_02";
   "anim_feedback_shutup_01";
   "anim_knowledgegraph_success_01";
   "anim_wakeword_groggyeyes_listenloop_01";
   "anim_fistbump_success_01";
   "anim_reacttoface_unidentified_01";
   "anim_rtpickup_loop_10";
   "anim_volume_stage_05"]%string.

(** The loop of [__init__] over [default_anims_for_keys]: [kI] counts the
    keys; a default that is not in [names] ([ValueError] caught) falls back
    to [kI].  The message printed in that case is not modelled.  [kI] stays
    below the length of the table, so the item assignment is an in-range
    update. *)
Fixpoint bind_default_keys (names : list string) (defaults : list string)
    (kI : nat) (table : list Z) : list Z :=
  match defaults with
  | [] => table
  | default_key :: rest =>
      let anim_idx :=
        match py_index names default_key with
        | Some i => i
        | None => Z.of_nat kI
        end in
      bind_default_keys names rest (S kI) (<[kI := anim_idx]> table)
  end.

Definition func_to_name (func : RobotFunc) : string :=
  match func with
  | say_text => "say_text"
  | play_animation => "play_anim"
  end.

Definition action_to_text (action : Action) : string :=
  let '(func, args) := action in
  func_to_name func ++ "( " ++ args ++ " )".

(** The loop of [action_queue_to_text]: [i] is the running number and
    [out_text] the text built so far. *)
Fixpoint action_queue_text_loop (queue : list Action) (i : nat)
    (out_text : string) : string :=
  match queue with
  | [] => out_text
  | action :: rest =>
      action_queue_text_loop rest (S i)
        (out_text ++ "[" ++ str_nat i ++ "] " ++ action_to_text action)
  end.

(** The loop of [handle_updateVector] over the queue. *)
Fixpoint update_vector_text_loop (queue : list Action) (i : nat)
    (action_queue_text : string) : string :=
  match queue with
  | [] => action_queue_text
  | action :: rest =>
      update_vector_text_loop rest (S i)
        (action_queue_text ++ str_nat i ++ ": " ++ action_to_text action ++ "<br>")
  end.

Section Methods.

Context {R : Type} `{Robot R}.

(** The session together with the robot it drives. *)
Definition World : Type := Session * R.

Definition get_self : M World Session := fun w => Return (fst w) w.

Definition modify_self (f : Session -> Session) : M World unit :=
  fun w => Return tt (f (fst w), snd w).

(** A robot call whose result is not used. *)
Definition robot_do (f : R -> R) : M World unit :=
  fun w => Return tt (fst w, f (snd w)).

Definition robot_read {A} (f : R -> A) : M World A :=
  fun w => Return (f (snd w)) w.

Definition robot_call (f : R -> bool * R) : M World bool :=
  fun w => let '(b, r) := f (snd w) in Return b (fst w, r).

Definition getitem {A} (l : list A) (i : Z) : M World A :=
  match py_getitem l i with
  | Some x => ret x
  | None => raise IndexError
  end.

(** [self.action_queue.pop(0)] *)
Definition pop_front : M World unit :=
  self <- get_self ;;
  match action_queue self with
  | [] => raise IndexError
  | _ :: rest => modify_self (set_action_queue rest)
  end.

(** [__init__].  The list of animations is read from the robot; that
    [sort()] also reorders the list object the robot handed out is not
    modelled. *)
Definition init (robot : R) : Session :=
  let all_anim_names := py_sort (anim_list robot) in
  let names :=
    List.filter (fun anim_name => negb (py_in anim_name bad_anim_names))
      all_anim_names in
  {| drive_forwards := false; drive_back := false;
     turn_left := false; turn_right := false;
     lift_up := false; lift_down := false;
     head_up := false; head_down := false;
     go_fast := false; go_slow := false;
     is_mouse_look_enabled := false;
     mouse_dir := 0%Q;
     anim_names := names;
     anim_index_for_key :=
       bind_default_keys names default_anims_for_keys 0 (replicate 10 0);
     action_queue := [];
     text_to_say := "Hi I'm Vector" |}.

Definition set_anim (key_index anim_index : Z) : M World unit :=
  self <- get_self ;;
  match py_setitem (anim_index_for_key self) key_index anim_index with
  | Some table => modify_self (set_anim_index_for_key table)
  | None => raise IndexError
  end.

Definition update_mouse_driving : M World unit :=
  self <- get_self ;;
  let drive_dir := (b2q (drive_forwards self) - b2q (drive_back self))%Q in
  let turn_dir :=
    (b2q (turn_right self) - b2q (turn_left self) + mouse_dir self)%Q in
  let turn_dir := if Qltb drive_dir 0 then (- turn_dir)%Q else turn_dir in
  let forward_speed := pick_speed self 150%Q 75%Q 50%Q in
  let turn_speed := pick_speed self 100%Q 50%Q 30%Q in
  let l_wheel_speed := (drive_dir * forward_speed + turn_speed * turn_dir)%Q in
  let r_wheel_speed := (drive_dir * forward_speed - turn_speed * turn_dir)%Q in
  robot_do (set_wheel_motors l_wheel_speed r_wheel_speed
              (l_wheel_speed * 4)%Q (r_wheel_speed * 4)%Q).

Definition update_lift : M World unit :=
  self <- get_self ;;
  let lift_speed := pick_speed self 8%Q 4%Q 2%Q in
  let lift_vel := ((b2q (lift_up self) - b2q (lift_down self)) * lift_speed)%Q in
  robot_do (set_lift_motor lift_vel).

Definition update_head : M World unit :=
  self <- get_self ;;
  if negb (is_mouse_look_enabled self) then
    let head_speed := pick_speed self 2%Q 1%Q 0.5%Q in
    let head_vel := ((b2q (head_up self) - b2q (head_down self)) * head_speed)%Q in
    robot_do (set_head_motor head_vel)
  else ret tt.

Definition handle_mouse (mouse_x mouse_y : Q) : M World unit :=
  self <- get_self ;;
  if is_mouse_look_enabled self then
    let mouse_sensitivity := 1.5%Q in
    modify_self
      (set_mouse_dir
         (remap_to_range mouse_x 0%Q 1%Q (- mouse_sensitivity)%Q mouse_sensitivity)) ;;;
    update_mouse_driving ;;;
    let desired_head_angle := remap_to_range mouse_y 0%Q 1%Q 45%Q (-25)%Q in
    current <- robot_read head_angle_degrees ;;
    let head_angle_delta := (desired_head_angle - current)%Q in
    let head_vel := (head_angle_delta * 0.03)%Q in
    robot_do (set_head_motor head_vel)
  else ret tt.

Definition set_mouse_look_enabled (enabled : bool) : M World unit :=
  self <- get_self ;;
  let was_mouse_look_enabled := is_mouse_look_enabled self in
  modify_self (set_is_mouse_look_enabled enabled) ;;;
  if negb enabled then
    modify_self (set_mouse_dir 0%Q) ;;;
    if was_mouse_look_enabled then
      update_mouse_driving ;;;
      update_head
    else ret tt
  else ret tt.

Definition update_drive_state (key_code : Z) (is_key_down speed_changed : bool)
  : M World bool :=
  if key_code =? ord "W" then
    modify_self (set_drive_forwards is_key_down) ;;; ret true
  else if key_code =? ord "S" then
    modify_self (set_drive_back is_key_down) ;;; ret true
  else if key_code =? ord "A" then
    modify_self (set_turn_left is_key_down) ;;; ret true
  else if key_code =? ord "D" then
    modify_self (set_turn_right is_key_down) ;;; ret true
  else if negb speed_changed then ret false
  else ret true.

Definition update_lift_state (key_code : Z) (is_key_down speed_changed : bool)
  : M World bool :=
  if key_code =? ord "R" then
    modify_self (set_lift_up is_key_down) ;;; ret true
  else if key_code =? ord "F" then
    modify_self (set_lift_down is_key_down) ;;; ret true
  else if negb speed_changed then ret false
  else ret true.

Definition update_head_state (key_code : Z) (is_key_down speed_changed : bool)
  : M World bool :=
  if key_code =? ord "T" then
    modify_self (set_head_up is_key_down) ;;; ret true
  else if key_code =? ord "G" then
    modify_self (set_head_down is_key_down) ;;; ret true
  else if negb speed_changed then ret false
  else ret true.

Definition key_code_to_anim_name (key_code : Z) : M World string :=
  self <- get_self ;;
  let key_num := key_code - ord "0" in
  anim_num <- getitem (anim_index_for_key self) key_num ;;
  anim_name <- getitem (anim_names self) anim_num ;;
  ret anim_name.

Definition action_queue_to_text (queue : list Action) : M World string :=
  ret (action_queue_text_loop queue 0 "").

Definition queue_action (new_action : Action) : M World unit :=
  self <- get_self ;;
  (if 10 <? Z.of_nat (length (action_queue self)) then pop_front else ret tt) ;;;
  self <- get_self ;;
  modify_self (set_action_queue (action_queue self ++ [new_action])).

(** [update]: try and execute the next queued action. *)
Definition update : M World unit :=
  self <- get_self ;;
  match action_queue self with
  | [] => ret tt
  | (queued_action, action_args) :: _ =>
      completed <- robot_call (call_action queued_action action_args) ;;
      if completed then pop_front else ret tt
  end.

Definition handle_key (key_code : Z)
    (is_shift_down is_alt_down is_key_down : bool) : M World unit :=
  self <- get_self ;;
  let was_go_fast := go_fast self in
  let was_go_slow := go_slow self in
  modify_self (set_go_fast is_shift_down) ;;;
  modify_self (set_go_slow is_alt_down) ;;;
  self <- get_self ;;
  let speed_changed :=
    negb (Bool.eqb was_go_fast (go_fast self))
    || negb (Bool.eqb was_go_slow (go_slow self)) in
  upd_driving <- update_drive_state key_code is_key_down speed_changed ;;
  upd_lift <- update_lift_state key_code is_key_down speed_changed ;;
  upd_head <- update_head_state key_code is_key_down speed_changed ;;
  (if upd_driving then update_mouse_driving else ret tt) ;;;
  (if upd_head then update_head else ret tt) ;;;
  (if upd_lift then update_lift else ret tt) ;;;
  if negb is_key_down then
    if (ord "9" >=? key_code) && (key_code >=? ord "0") then
      anim_name <- key_code_to_anim_name key_code ;;
      queue_action (play_animation, anim_name)
    else if key_code =? ord " " then
      self <- get_self ;;
      queue_action (say_text, text_to_say self)
    else ret tt
  else ret tt.

(** The assignment of [handle_sayText]: [text_to_say = textEntered]. *)
Definition handle_sayText (text_entered : string) : M World unit :=
  modify_self (set_text_to_say text_entered).

(** [handle_updateVector]: one drain step, then the numbered listing. *)
Definition handle_updateVector : M World string :=
  update ;;;
  self <- get_self ;;
  let action_queue_text := update_vector_text_loop (action_queue self) 1 "" in
  ret ("Action Queue:<br>" ++ action_queue_text ++ String "010"%char "").

(** Requests that reach the session.  [handle_setFreeplayEnabled] only
    talks to the robot's connection and is left out. *)
Inductive Request : Type :=
| KeyEvent (key_code : Z) (has_shift has_alt is_key_down : bool)
| MouseMove (client_x client_y : Q)
| SetMouseLookEnabled (enabled : bool)
| DropDownSelect (item_name_index selected_index : Z)
| SayText (text_entered : string)
| UpdateVector.

Definition handle (req : Request) : M World unit :=
  match req with
  | KeyEvent key_code has_shift has_alt is_key_down =>
      handle_key key_code has_shift has_alt is_key_down
  | MouseMove client_x client_y => handle_mouse client_x client_y
  | SetMouseLookEnabled enabled => set_mouse_look_enabled enabled
  | DropDownSelect item_name_index selected_index =>
      set_anim item_name_index selected_index
  | SayText text_entered => handle_sayText text_entered
  | UpdateVector => handle_updateVector ;;; ret tt
  end.

(** The server keeps the session across requests; a request that raised
    leaves the state it reached. *)
Definition serve (w : World) (reqs : list Request) : World :=
  fold_left (fun w req => final (handle req w)) reqs w.

End Methods.

(** ** A scripted robot

    A robot for running the session on concrete inputs: it records every
    command it receives and answers the action calls from a script
    ([false]: still running, [true]: completed). *)

Inductive Command : Type :=
| WheelMotors (l_wheel_speed r_wheel_speed l_wheel_acc r_wheel_acc : Q)
| LiftMotor (speed : Q)
| HeadMotor (speed : Q)
| Called (func : RobotFunc) (args : string).

Record Scripted : Type := mkScripted {
  commands : list Command;
  answers : list bool;
  head_degrees : Q;
  animations : list string
}.

Definition record_command (c : Command) (rb : Scripted) : Scripted :=
  {| commands := commands rb ++ [c]; answers := answers rb;
     head_degrees := head_degrees rb; animations := animations rb |}.

Definition scripted_call (func : RobotFunc) (args : string) (rb : Scripted)
  : bool * Scripted :=
  match answers rb with
  | [] => (false, record_command (Called func args) rb)
  | b :: script =>
      (b, {| commands := commands rb ++ [Called func args]; answers := script;
             head_degrees := head_degrees rb; animations := animations rb |})
  end.

#[export] Instance scripted_robot : Robot Scripted := {
  set_wheel_motors l r la ra := record_command (WheelMotors l r la ra);
  set_lift_motor v := record_command (LiftMotor v);
  set_head_motor v := record_command (HeadMotor v);
  head_angle_degrees := head_degrees;
  call_action := scripted_call;
  anim_list := animations
}.

(** A robot with three animations, one of them a default for key 0, and the
    world of a fresh session on it. *)
Definition demo_robot (script : list bool) : Scripted :=
  {| commands := []; answers := script; head_degrees := 0%Q;
     animations := ["anim_x"; "anim_turn_left_01"; "ANIMATION_TEST"]%string |}.

Definition demo_world (script : list bool) : @World Scripted :=
  (init (demo_robot script), demo_robot script).

(** A robot that knows no animation at all. *)
Definition bare_robot : Scripted :=
  {| commands := []; answers := []; head_degrees := 0%Q; animations := [] |}.

(** Enqueue a list of actions one after the other. *)
Definition enqueue_all {R} `{Robot R} (w : @World R) (actions : list Action)
  : @World R :=
  fold_left (fun w action => final (queue_action action w)) actions w.

(** ** Definitions used in the statements *)

(** A full queue on the demo robot: eleven spoken letters. *)
Definition eleven_actions : list Action :=
  map (fun text => (say_text, text))
    ["a"; "b"; "c"; "d"; "e"; "f"; "g"; "h"; "i"; "j"; "k"]%string.

(** [n] drain steps in a row. *)
Definition updates {R} `{Robot R} (n : nat) (w : @World R) : @World R :=
  Nat.iter n (fun w => final (update w)) w.

(** The left and right wheel speeds that [update_mouse_driving] computes
    from the session. *)
Definition wheel_speeds (s : Session) : Q * Q :=
  let drive_dir := (b2q (drive_forwards s) - b2q (drive_back s))%Q in
  let turn_dir := (b2q (turn_right s) - b2q (turn_left s) + mouse_dir s)%Q in
  let turn_dir := if Qltb drive_dir 0 then (- turn_dir)%Q else turn_dir in
  let forward_speed := pick_speed s 150%Q 75%Q 50%Q in
  let turn_speed := pick_speed s 100%Q 50%Q 30%Q in
  ((drive_dir * forward_speed + turn_speed * turn_dir)%Q,
   (drive_dir * forward_speed - turn_speed * turn_dir)%Q).

(** The velocity of the discrete branch of [update_head]. *)
Definition head_velocity (s : Session) : Q :=
  ((b2q (head_up s) - b2q (head_down s)) * pick_speed s 2%Q 1%Q 0.5%Q)%Q.

(** The velocity [update_lift] computes. *)
Definition lift_velocity (s : Session) : Q :=
  ((b2q (lift_up s) - b2q (lift_down s)) * pick_speed s 8%Q 4%Q 2%Q)%Q.

(** Reversing with the left key held, slow speed: the session after
    [S] down, [A] down with alt held. *)
Definition reversing_left : @World Scripted :=
  serve (demo_world [])
    [KeyEvent (ord "S") false true true; KeyEvent (ord "A") false true true].

(** The demo session with mouse look enabled and the mouse moved to the
    right edge of the window. *)
Definition looking_right : @World Scripted :=
  serve (demo_world []) [SetMouseLookEnabled true; MouseMove 1%Q 0.5%Q].

(** The fields that only the drop-down, text and mouse handlers write. *)
Definition same_config (s s' : Session) : Prop :=
  anim_names s' = anim_names s
  /\ anim_index_for_key s' = anim_index_for_key s
  /\ text_to_say s' = text_to_say s
  /\ mouse_dir s' = mouse_dir s
  /\ is_mouse_look_enabled s' = is_mouse_look_enabled s.

(** What the three [update_*_state] methods leave alone: they write
    held-key fields only. *)
Definition keeps_rest (s s' : Session) : Prop :=
  same_config s s' /\ action_queue s' = action_queue s
  /\ go_fast s' = go_fast s /\ go_slow s' = go_slow s.

(** The last part of [handle_key]: what a released key enqueues. *)
Definition key_release {R} `{Robot R} (key_code : Z) (is_key_down : bool)
  : M (@World R) unit :=
  if negb is_key_down then
    if (ord "9" >=? key_code) && (key_code >=? ord "0") then
      anim_name <- key_code_to_anim_name key_code ;;
      queue_action (play_animation, anim_name)
    else if key_code =? ord " " then
      self <- get_self ;;
      queue_action (say_text, text_to_say self)
    else ret tt
  else ret tt.

(** The demo session after the drop-down of key 5 was set to entry 1 of the
    list of animations, which is ["anim_x"]. *)
Definition key5_bound : @World Scripted :=
  serve (demo_world []) [DropDownSelect 5 1].

(** [j] is a position of the list [names]. *)
Definition valid_index (names : list string) (j : Z) : Prop :=
  0 <= j < Z.of_nat (length names).

#[export] Instance valid_index_dec names j : Decision (valid_index names j).
Proof. unfold valid_index. apply _. Defined.

(** Every digit key is bound to an index of [anim_names]. *)
Definition bindings_valid (s : Session) : Prop :=
  Forall (valid_index (anim_names s)) (anim_index_for_key s).

(** The drop-down of a request, if it is one, selects an entry of [names]. *)
Definition selects_within (names : list string) (req : Request)
  : Prop :=
  match req with
  | DropDownSelect _ selected_index => valid_index names selected_index
  | _ => True
  end.

(** A robot whose animations are exactly the ten defaults. *)
Definition full_robot : Scripted :=
  {| commands := []; answers := []; head_degrees := 0%Q;
     animations := default_anims_for_keys |}.

(** The listing the text functions are meant to produce, written without
    an accumulator: the entries in queue order, entry [k] of the queue
    numbered [start + k] and laid out by [line]. *)
Fixpoint listing (line : nat -> Action -> string) (start : nat)
    (queue : list Action) : string :=
  match queue with
  | [] => ""
  | action :: rest => line start action ++ listing line (S start) rest
  end.

(** One entry as [action_queue_to_text] lays it out. *)
Definition bracket_line (i : nat) (action : Action) : string :=
  "[" ++ str_nat i ++ "] " ++ action_to_text action.

(** One entry as [handle_updateVector] lays it out. *)
Definition colon_line (i : nat) (action : Action) : string :=
  str_nat i ++ ": " ++ action_to_text action ++ "<br>".

(** The order [sort()] puts strings in. *)
Definition str_le (a b : string) : Prop := String.leb a b = true.

(** The keys of the three groups that [handle_key] tells apart. *)
Definition is_drive_key (key_code : Z) : bool :=
  (key_code =? ord "W") || (key_code =? ord "S")
  || (key_code =? ord "A") || (key_code =? ord "D").

Definition is_lift_key (key_code : Z) : bool :=
  (key_code =? ord "R") || (key_code =? ord "F").

Definition is_head_key (key_code : Z) : bool :=
  (key_code =? ord "T") || (key_code =? ord "G").

(** The held-key field that each [update_*_state] method assigns. *)
Definition drive_keys (key_code : Z) (is_key_down : bool) (s : Session)
  : Session :=
  if key_code =? ord "W" then set_drive_forwards is_key_down s
  else if key_code =? ord "S" then set_drive_back is_key_down s
  else if key_code =? ord "A" then set_turn_left is_key_down s
  else if key_code =? ord "D" then set_turn_right is_key_down s
  else s.

Definition lift_keys (key_code : Z) (is_key_down : bool) (s : Session)
  : Session :=
  if key_code =? ord "R" then set_lift_up is_key_down s
  else if key_code =? ord "F" then set_lift_down is_key_down s
  else s.

Definition head_keys (key_code : Z) (is_key_down : bool) (s : Session)
  : Session :=
  if key_code =? ord "T" then set_head_up is_key_down s
  else if key_code =? ord "G" then set_head_down is_key_down s
  else s.

(** The session after the first part of [handle_key]: modifiers taken from
    the event, then the held-key field of the key. *)
Definition after_key (key_code : Z) (is_shift_down is_alt_down is_key_down : bool)
    (s : Session) : Session :=
  head_keys key_code is_key_down
    (lift_keys key_code is_key_down
       (drive_keys key_code is_key_down
          (set_go_slow is_alt_down (set_go_fast is_shift_down s)))).

(** Whether a key event changes one of the two modifiers. *)
Definition modifiers_change (is_shift_down is_alt_down : bool) (s : Session)
  : bool :=
  negb (Bool.eqb (go_fast s) is_shift_down)
  || negb (Bool.eqb (go_slow s) is_alt_down).

(** The motor calls of [handle_key], in the order it makes them: wheels,
    head, lift, each only when its flag is set. *)
Definition issue_motors {R} `{Robot R} (drive head lift : bool) (s : Session)
    (robot : R) : R :=
  let robot :=
    if drive then
      set_wheel_motors (fst (wheel_speeds s)) (snd (wheel_speeds s))
        (fst (wheel_speeds s) * 4)%Q (snd (wheel_speeds s) * 4)%Q robot
    else robot in
  let robot :=
    if head && negb (is_mouse_look_enabled s)
    then set_head_motor (head_velocity s) robot else robot in
  if lift then set_lift_motor (lift_velocity s) robot else robot.

(** The same calls as entries of the scripted robot's record. *)
Definition motor_commands (drive head lift : bool) (s : Session)
  : list Command :=
  ((if drive then
      [WheelMotors (fst (wheel_speeds s)) (snd (wheel_speeds s))
         (fst (wheel_speeds s) * 4)%Q (snd (wheel_speeds s) * 4)%Q]
    else [])
   ++ (if head && negb (is_mouse_look_enabled s)
       then [HeadMotor (head_velocity s)] else [])
   ++ (if lift then [LiftMotor (lift_velocity s)] else []))%list.

(** The session with forward and back exchanged. *)
Definition reversed (s : Session) : Session :=
  set_drive_back (drive_forwards s) (set_drive_forwards (drive_back s) s).

(** A double quote, as a string. *)
Definition dquote : string := String "034"%char "".

(** [str(z)] for an integer. *)
Definition str_int (z : Z) : string := NilZero.string_of_int (Z.to_int z).

(** The loop of [get_anim_sel_drop_down] over [anim_names]: every round
    reads [anim_index_for_key[selectorIndex]] ([None] stands for the
    [IndexError] of that read) and appends one option. *)
Fixpoint drop_down_loop (table : list Z) (selectorIndex : Z)
    (names : list string) (i : nat) (html_text : string) : option string :=
  match names with
  | [] => Some html_text
  | anim_name :: rest =>
      match py_getitem table selectorIndex with
      | None => None
      | Some bound =>
          let is_selected_item := Z.of_nat i =? bound in
          let selected_text :=
            if is_selected_item
            then " selected=" ++ dquote ++ "selected" ++ dquote else "" in
          drop_down_loop table selectorIndex rest (S i)
            (html_text ++ "<option value=" ++ str_nat i ++ selected_text
             ++ ">" ++ anim_name ++ "</option>")
      end
  end.

(** The opening tag that [get_anim_sel_drop_down] starts from. *)
Definition select_tag (selectorIndex : Z) : string :=
  "<select onchange=" ++ dquote ++ "handleDropDownSelect(this)" ++ dquote
  ++ " name=" ++ dquote ++ "animSelector" ++ str_int selectorIndex ++ dquote
  ++ ">".

(** [get_anim_sel_drop_down], on the session of the application. *)
Definition get_anim_sel_drop_down {R} `{Robot R} (selectorIndex : Z)
  : M (@World R) string :=
  self <- get_self ;;
  match drop_down_loop (anim_index_for_key self) selectorIndex
          (anim_names self) 0 (select_tag selectorIndex) with
  | None => raise IndexError
  | Some html_text => ret (html_text ++ "</select>")
  end.

(** The loop of [get_anim_sel_drop_downs] over [range(10)]. *)
Fixpoint drop_downs_loop {R} `{Robot R} (range : list Z) (html_text : string)
  : M (@World R) string :=
  match range with
  | [] => ret html_text
  | i :: rest =>
      let key := if i <? 9 then i + 1 else 0 in
      drop_down <- get_anim_sel_drop_down key ;;
      drop_downs_loop rest (html_text ++ str_int key ++ ": " ++ drop_down ++ "<br>")
  end.

Definition get_anim_sel_drop_downs {R} `{Robot R} : M (@World R) string :=
  drop_downs_loop [0; 1; 2; 3; 4; 5; 6; 7; 8; 9] "".

(** The options of a drop-down written without an accumulator: entry [k] of
    [names] has value [start + k] and is marked selected exactly when that
    value is [bound]. *)
Fixpoint options (bound : Z) (start : nat) (names : list string) : string :=
  match names with
  | [] => ""
  | anim_name :: rest =>
      "<option value=" ++ str_nat start
      ++ (if Z.of_nat start =? bound
          then " selected=" ++ dquote ++ "selected" ++ dquote else "")
      ++ ">" ++ anim_name ++ "</option>" ++ options bound (S start) rest
  end.

(** The queue after [queue_action], as a function of the queue before. *)
Definition enqueued (queue : list Action) (new_action : Action) : list Action :=
  ((if 10 <? Z.of_nat (length queue) then drop 1 queue else queue)
   ++ [new_action])%list.

(** What the release part of [handle_key] does to the session: a released
    digit key whose binding names an animation enqueues it, a released
    space key enqueues the text, everything else changes nothing. *)
Definition released (key_code : Z) (is_key_down : bool) (s : Session)
  : Session :=
  if negb is_key_down then
    if (ord "9" >=? key_code) && (key_code >=? ord "0") then
      match py_getitem (anim_index_for_key s) (key_code - ord "0") with
      | Some anim_num =>
          match py_getitem (anim_names s) anim_num with
          | Some anim_name =>
              set_action_queue
                (enqueued (action_queue s) (play_animation, anim_name)) s
          | None => s
          end
      | None => s
      end
    else if key_code =? ord " " then
      set_action_queue (enqueued (action_queue s) (say_text, text_to_say s)) s
    else s
  else s.

(** Whether the release part of [handle_key] raises [IndexError]: a released
    digit key whose binding is missing or names no animation. *)
Definition release_fails (key_code : Z) (is_key_down : bool) (s : Session)
  : bool :=
  negb is_key_down
  && ((ord "9" >=? key_code) && (key_code >=? ord "0"))
  && match py_getitem (anim_index_for_key s) (key_code - ord "0") with
     | Some anim_num =>
         match py_getitem (anim_names s) anim_num with
         | Some _ => false
         | None => true
         end
     | None => true
     end.

(** The text of one drop-down as it is meant to come out: the opening tag,
    the options with the one bound to [key] marked, the closing tag. *)
Definition drop_down_html (s : Session) (key : Z) : string :=
  select_tag key
  ++ options (default 0 (py_getitem (anim_index_for_key s) key)) 0 (anim_names s)
  ++ "</select>".

(** One line of the page: the key, its drop-down, a line break. *)
Definition drop_down_line (s : Session) (key : Z) : string :=
  str_int key ++ ": " ++ drop_down_html s key ++ "<br>".

(** ** Binary64 arithmetic

    The numbers of a mouse position reach the session as Python floats,
    that is binary64 values, NaN and the infinities included.  [Binary64]
    holds [remap_to_range] computed on them. *)
Module Binary64.

(** [remap_to_range] on binary64 values; [None] stands for the
    [ZeroDivisionError] of a division by zero. *)
Definition remap_to_range (x x_min x_max out_min out_max : float)
  : option float :=
  if PrimFloat.ltb x x_min then Some out_min
  else if PrimFloat.ltb x_max x then Some out_max
  else
    let divisor := PrimFloat.sub x_max x_min in
    if PrimFloat.eqb divisor 0%float then None
    else
      let ratio := PrimFloat.div (PrimFloat.sub x x_min) divisor in
      Some (PrimFloat.add out_min
              (PrimFloat.mul ratio (PrimFloat.sub out_max out_min))).

End Binary64.

(** * Properties *)

(** ** Projections of updated sessions *)

Lemma action_queue_set_action_queue (q : list Action) (s : Session) :
  action_queue (set_action_queue q s) = q.
Proof. destruct s; reflexivity. Qed.

Lemma anim_index_for_key_set (table : list Z) (s : Session) :
  anim_index_for_key (set_anim_index_for_key table s) = table.
Proof. destruct s; reflexivity. Qed.

Lemma mouse_dir_set_mouse_dir (v : Q) (s : Session) :
  mouse_dir (set_mouse_dir v s) = v.
Proof. destruct s; reflexivity. Qed.

(** ** Speed selection *)

(** C1 (as the code has it): [pick_speed] returns the fast speed when only
    [go_fast] is set, the slow speed when only [go_slow] is set, and the mid
    speed both when neither and when both modifiers are set. *)
Theorem pick_speed_table (A : Type) (s : Session) (fast mid slow : A) :
  pick_speed s fast mid slow =
  match go_fast s, go_slow s with
  | true, false => fast
  | false, true => slow
  | true, true => mid
  | false, false => mid
  end.
Proof.
  unfold pick_speed. destruct (go_fast s), (go_slow s); reflexivity.
Qed.

(** C1, the claim as stated fails: after a key event with both shift and alt
    held, both modifiers are set and the drive speed picked from
    [(150, 75, 50)] is the mid speed 75, not the slow speed 50. *)
Lemma pick_speed_both_modifiers_is_mid :
  let s := fst (serve (demo_world []) [KeyEvent (ord "W") true true true]) in
  go_fast s = true /\ go_slow s = true /\
  pick_speed s 150%Q 75%Q 50%Q = 75%Q /\
  ~ (pick_speed s 150%Q 75%Q 50%Q == 50%Q)%Q.
Proof.
  vm_compute. repeat split; discriminate.
Qed.

(** ** The action queue *)

Lemma set_action_queue_twice (q1 q2 : list Action) (s : Session) :
  set_action_queue q2 (set_action_queue q1 s) = set_action_queue q2 s.
Proof. destruct s; reflexivity. Qed.

(** What one [queue_action] call does to the world. *)
Lemma queue_action_eq {R} `{Robot R} (new_action : Action) (w : @World R) :
  queue_action new_action w =
  Return tt
    (set_action_queue
       ((if 10 <? Z.of_nat (length (action_queue (fst w)))
         then drop 1 (action_queue (fst w)) else action_queue (fst w))
        ++ [new_action]) (fst w),
     snd w).
Proof.
  destruct w as [s r]. unfold queue_action, bind, get_self. cbn [fst snd].
  destruct (10 <? Z.of_nat (length (action_queue s))) eqn:Hfull.
  - unfold pop_front, bind, get_self. cbn [fst snd].
    destruct (action_queue s) as [|oldest rest] eqn:Hq.
    + cbn in Hfull. discriminate.
    + unfold modify_self. cbn [fst snd].
      rewrite action_queue_set_action_queue, set_action_queue_twice.
      reflexivity.
  - unfold ret, modify_self. cbn [fst snd]. reflexivity.
Qed.

Lemma queue_action_queue {R} `{Robot R} (new_action : Action) (w : @World R) :
  action_queue (fst (final (queue_action new_action w))) =
  ((if 10 <? Z.of_nat (length (action_queue (fst w)))
    then drop 1 (action_queue (fst w)) else action_queue (fst w))
   ++ [new_action])%list.
Proof.
  rewrite queue_action_eq. cbn [final fst].
  apply action_queue_set_action_queue.
Qed.

Lemma queue_action_length {R} `{Robot R} (new_action : Action) (w : @World R) :
  (length (action_queue (fst w)) <= 11)%nat ->
  (length (action_queue (fst (final (queue_action new_action w)))) <= 11)%nat.
Proof.
  intros Hlen. rewrite queue_action_queue.
  destruct (10 <? Z.of_nat (length (action_queue (fst w)))) eqn:Hfull;
    rewrite length_app; cbn [length].
  - rewrite length_drop. lia.
  - apply Z.ltb_ge in Hfull. lia.
Qed.

(** Enqueuing keeps the newest eleven entries of what was queued and what
    was added, in order. *)
Lemma enqueue_all_keeps_newest {R} `{Robot R} (actions : list Action) :
  forall w : @World R,
    (length (action_queue (fst w)) <= 11)%nat ->
    action_queue (fst (enqueue_all w actions)) =
    drop (length (action_queue (fst w) ++ actions)%list - 11)
      (action_queue (fst w) ++ actions)%list.
Proof.
  induction actions as [|action actions IH]; intros w Hlen.
  - cbn [enqueue_all fold_left]. rewrite app_nil_r.
    replace (length (action_queue (fst w)) - 11)%nat with 0%nat by lia.
    reflexivity.
  - cbn [enqueue_all fold_left].
    change (fold_left _ actions ?w') with (enqueue_all w' actions).
    rewrite IH by (apply queue_action_length; exact Hlen).
    rewrite queue_action_queue.
    destruct (10 <? Z.of_nat (length (action_queue (fst w)))) eqn:Hfull.
    + apply Z.ltb_lt in Hfull.
      destruct (action_queue (fst w)) as [|oldest rest] eqn:Hq;
        [cbn in Hfull; lia|].
      cbn [drop]. rewrite drop_0, <- app_assoc. cbn [app length] in *.
      rewrite !length_app. cbn [length].
      replace (S (length rest + S (length actions)) - 11)%nat
        with (S (length rest + S (length actions) - 11))%nat by lia.
      reflexivity.
    + rewrite <- app_assoc. reflexivity.
Qed.

(** C2: the queue never holds more than 11 actions; [queue_action] removes
    the entry at index 0 first when the length before appending is above
    10, and always appends the new action at the tail; twelve actions
    enqueued from empty leave the last eleven, in order. *)
Theorem queue_action_bounded_fifo {R} `{Robot R}
    (w : @World R) (robot : R) (new_action first : Action)
    (actions later : list Action) :
  (length (action_queue (fst (enqueue_all (init robot, robot) actions))) <= 11)%nat
  /\ ((length (action_queue (fst w)) <= 11)%nat ->
      (length (action_queue (fst (enqueue_all w actions))) <= 11)%nat)
  /\ ((10 < length (action_queue (fst w)))%nat ->
      exists oldest rest,
        action_queue (fst w) = oldest :: rest /\
        queue_action new_action w =
        Return tt (set_action_queue (rest ++ [new_action]) (fst w), snd w))
  /\ ((length (action_queue (fst w)) <= 10)%nat ->
      queue_action new_action w =
      Return tt
        (set_action_queue (action_queue (fst w) ++ [new_action]) (fst w), snd w))
  /\ (length later = 11%nat ->
      action_queue (fst (enqueue_all (init robot, robot) (first :: later))) = later).
Proof.
  assert (Hbound : forall w' : @World R,
             (length (action_queue (fst w')) <= 11)%nat ->
             (length (action_queue (fst (enqueue_all w' actions))) <= 11)%nat).
  { intros w' Hlen. rewrite enqueue_all_keeps_newest by exact Hlen.
    rewrite length_drop. lia. }
  split; [|split; [|split; [|split]]].
  - apply Hbound. cbn. lia.
  - apply Hbound.
  - intros Hfull. rewrite queue_action_eq.
    destruct (action_queue (fst w)) as [|oldest rest] eqn:Hq;
      [cbn in Hfull; lia|].
    exists oldest, rest. split; [reflexivity|].
    replace (10 <? Z.of_nat (length (oldest :: rest))) with true
      by (symmetry; apply Z.ltb_lt; lia).
    reflexivity.
  - intros Hroom. rewrite queue_action_eq.
    replace (10 <? Z.of_nat (length (action_queue (fst w)))) with false
      by (symmetry; apply Z.ltb_ge; lia).
    reflexivity.
  - intros Hlater. rewrite enqueue_all_keeps_newest by (cbn; lia).
    cbn [init action_queue fst app length]. rewrite Hlater.
    reflexivity.
Qed.

Lemma queue_action_bounded_fifo_witness :
  (length (action_queue (fst (enqueue_all (demo_world []) eleven_actions))) <= 11)%nat
  /\ (exists oldest rest,
        action_queue (fst (enqueue_all (demo_world []) eleven_actions)) = oldest :: rest /\
        queue_action (play_animation, "anim_x")
          (enqueue_all (demo_world []) eleven_actions) =
        Return tt
          (set_action_queue (rest ++ [(play_animation, "anim_x")])
             (fst (enqueue_all (demo_world []) eleven_actions)),
           snd (enqueue_all (demo_world []) eleven_actions)))
  /\ queue_action (say_text, "a") (demo_world []) =
     Return tt
       (set_action_queue (action_queue (fst (demo_world [])) ++ [(say_text, "a")])
          (fst (demo_world [])), snd (demo_world []))
  /\ action_queue
       (fst (enqueue_all (init (demo_robot []), demo_robot [])
               ((play_animation, "anim_x") :: eleven_actions))) = eleven_actions.
Proof.
  split; [|split; [|split]].
  - apply (queue_action_bounded_fifo (demo_world []) (demo_robot [])
             (say_text, "a") (say_text, "a") eleven_actions eleven_actions).
    cbn. lia.
  - apply (queue_action_bounded_fifo
             (enqueue_all (demo_world []) eleven_actions) (demo_robot [])
             (play_animation, "anim_x") (say_text, "a") [] []).
    vm_compute. lia.
  - apply (queue_action_bounded_fifo (demo_world []) (demo_robot [])
             (say_text, "a") (say_text, "a") [] []).
    vm_compute. lia.
  - apply (queue_action_bounded_fifo (demo_world []) (demo_robot [])
             (say_text, "a") (play_animation, "anim_x") [] eleven_actions).
    reflexivity.
Defined.

(** ** The drain step *)

Lemma update_empty {R} `{Robot R} (w : @World R) :
  action_queue (fst w) = [] -> update w = Return tt w.
Proof.
  intros Hq. unfold update, bind, get_self. cbn [fst snd]. rewrite Hq.
  reflexivity.
Qed.

Lemma update_nonempty {R} `{Robot R} (w : @World R) func args rest :
  action_queue (fst w) = (func, args) :: rest ->
  update w =
  Return tt
    (if fst (call_action func args (snd w))
     then set_action_queue rest (fst w) else fst w,
     snd (call_action func args (snd w))).
Proof.
  intros Hq. destruct w as [s r].
  unfold update, bind, get_self. cbn [fst snd] in *. rewrite Hq.
  unfold robot_call. cbn [fst snd].
  destruct (call_action func args r) as [completed r']. cbn [fst snd].
  destruct completed; [|reflexivity].
  unfold pop_front, bind, get_self. cbn [fst snd]. rewrite Hq.
  reflexivity.
Qed.

(** C3: [update] on an empty queue changes nothing; on a non-empty queue it
    calls the head action on the robot and removes the head exactly when the
    call returns a true value, the session being unchanged otherwise; with a
    single queued action and a robot that answers false three times and then
    true, the queue has length 1 after each of the first three steps and
    length 0 after the fourth, the action having been called at each step. *)
Theorem update_pops_head_on_completion {R} `{Robot R}
    (w : @World R) (func : RobotFunc) (args : string) (rest : list Action)
    (robot' : R) (script : list bool) :
  (action_queue (fst w) = [] -> update w = Return tt w)
  /\ (action_queue (fst w) = (func, args) :: rest ->
      call_action func args (snd w) = (true, robot') ->
      update w = Return tt (set_action_queue rest (fst w), robot'))
  /\ (action_queue (fst w) = (func, args) :: rest ->
      call_action func args (snd w) = (false, robot') ->
      update w = Return tt (fst w, robot'))
  /\ (let w0 :=
        final (queue_action (func, args)
                 (demo_world ([false; false; false; true] ++ script))) in
      map (fun n => length (action_queue (fst (updates n w0)))) [0; 1; 2; 3; 4]%nat
      = [1; 1; 1; 1; 0]%nat
      /\ commands (snd (updates 4 w0)) = replicate 4 (Called func args)
      /\ answers (snd (updates 4 w0)) = script).
Proof.
  split; [|split; [|split]].
  - apply update_empty.
  - intros Hq Hcall. rewrite (update_nonempty w func args rest Hq), Hcall.
    reflexivity.
  - intros Hq Hcall. rewrite (update_nonempty w func args rest Hq), Hcall.
    reflexivity.
  - cbv zeta. repeat split; reflexivity.
Qed.

Lemma update_pops_head_on_completion_witness :
  update (demo_world []) = Return tt (demo_world [])
  /\ update (final (queue_action (say_text, "hello") (demo_world [true]))) =
     Return tt
       (set_action_queue []
          (fst (final (queue_action (say_text, "hello") (demo_world [true])))),
        record_command (Called say_text "hello") (demo_robot []))
  /\ update (final (queue_action (say_text, "hello") (demo_world [false]))) =
     Return tt
       (fst (final (queue_action (say_text, "hello") (demo_world [false]))),
        record_command (Called say_text "hello") (demo_robot [])).
Proof.
  split; [|split].
  - apply (proj1 (update_pops_head_on_completion (demo_world []) say_text ""
                    [] (demo_robot []) [])).
    reflexivity.
  - apply (proj1 (proj2 (update_pops_head_on_completion
             (final (queue_action (say_text, "hello") (demo_world [true])))
             say_text "hello" []
             (record_command (Called say_text "hello") (demo_robot [])) [])));
      reflexivity.
  - apply (proj1 (proj2 (proj2 (update_pops_head_on_completion
             (final (queue_action (say_text, "hello") (demo_world [false])))
             say_text "hello" []
             (record_command (Called say_text "hello") (demo_robot [])) []))));
      reflexivity.
Defined.

(** ** Derived motor commands *)

Lemma Qltb_lt (a b : Q) : Qltb a b = true <-> (a < b)%Q.
Proof.
  unfold Qltb. rewrite negb_true_iff, <- not_true_iff_false, Qle_bool_iff.
  split; [apply Qnot_le_lt | apply Qlt_not_le].
Qed.

Lemma Qltb_ge (a b : Q) : Qltb a b = false <-> (b <= a)%Q.
Proof.
  unfold Qltb. rewrite negb_false_iff. apply Qle_bool_iff.
Qed.

Lemma update_mouse_driving_eq {R} `{Robot R} (w : @World R) :
  update_mouse_driving w =
  Return tt
    (fst w,
     set_wheel_motors (fst (wheel_speeds (fst w))) (snd (wheel_speeds (fst w)))
       (fst (wheel_speeds (fst w)) * 4)%Q (snd (wheel_speeds (fst w)) * 4)%Q
       (snd w)).
Proof. reflexivity. Qed.

Lemma update_head_eq {R} `{Robot R} (w : @World R) :
  update_head w =
  Return tt
    (fst w,
     if is_mouse_look_enabled (fst w) then snd w
     else set_head_motor (head_velocity (fst w)) (snd w)).
Proof.
  destruct w as [s r]. unfold update_head, bind, get_self. cbn [fst snd].
  destruct (is_mouse_look_enabled s); reflexivity.
Qed.

Lemma update_lift_eq {R} `{Robot R} (w : @World R) :
  update_lift w =
  Return tt (fst w, set_lift_motor (lift_velocity (fst w)) (snd w)).
Proof. reflexivity. Qed.

(** C5: [update_mouse_driving] issues one wheel-motor command and changes
    nothing in the session.  With [drive_dir = drive_forwards - drive_back],
    [turn_dir = (turn_right - turn_left) + mouse_dir] negated when
    [drive_dir < 0], forward speed picked from (150, 75, 50) and turn speed
    from (100, 50, 30), the left speed is
    [drive_dir * forward_speed + turn_speed * turn_dir], the right speed is
    [drive_dir * forward_speed - turn_speed * turn_dir], and the two
    accelerations are 4 times the two speeds. *)
Theorem update_mouse_driving_command {R} `{Robot R} (w : @World R) :
  let s := fst w in
  let drive_dir := (b2q (drive_forwards s) - b2q (drive_back s))%Q in
  let forward_speed := pick_speed s 150%Q 75%Q 50%Q in
  let turn_speed := pick_speed s 100%Q 50%Q 30%Q in
  exists turn_dir : Q,
    ((drive_dir < 0)%Q ->
     turn_dir = (- (b2q (turn_right s) - b2q (turn_left s) + mouse_dir s))%Q)
    /\ ((0 <= drive_dir)%Q ->
        turn_dir = (b2q (turn_right s) - b2q (turn_left s) + mouse_dir s)%Q)
    /\ update_mouse_driving w =
       Return tt
         (s,
          set_wheel_motors
            (drive_dir * forward_speed + turn_speed * turn_dir)%Q
            (drive_dir * forward_speed - turn_speed * turn_dir)%Q
            ((drive_dir * forward_speed + turn_speed * turn_dir) * 4)%Q
            ((drive_dir * forward_speed - turn_speed * turn_dir) * 4)%Q
            (snd w)).
Proof.
  cbv zeta.
  destruct (Qltb (b2q (drive_forwards (fst w)) - b2q (drive_back (fst w))) 0)
    eqn:Hdir.
  - eexists. split; [reflexivity|]. split.
    + intros Hge. apply Qltb_lt in Hdir.
      exfalso. exact (Qlt_not_le _ _ Hdir Hge).
    + rewrite update_mouse_driving_eq. unfold wheel_speeds. cbn [fst snd].
      rewrite Hdir. reflexivity.
  - eexists. split; [|split; [reflexivity|]].
    + intros Hlt. apply Qltb_ge in Hdir.
      exfalso. exact (Qlt_not_le _ _ Hlt Hdir).
    + rewrite update_mouse_driving_eq. unfold wheel_speeds. cbn [fst snd].
      rewrite Hdir. reflexivity.
Qed.

Lemma update_mouse_driving_command_witness :
  commands (snd (final (update_mouse_driving reversing_left))) =
  (commands (snd reversing_left) ++
   [WheelMotors (-1 * 50 + 30 * - (0 - 1 + 0))%Q
      (-1 * 50 - 30 * - (0 - 1 + 0))%Q
      ((-1 * 50 + 30 * - (0 - 1 + 0)) * 4)%Q
      ((-1 * 50 - 30 * - (0 - 1 + 0)) * 4)%Q])%list.
Proof.
  destruct (update_mouse_driving_command reversing_left)
    as (turn_dir & Hrev & _ & Hrun).
  rewrite Hrun. cbn [final snd].
  rewrite Hrev by (vm_compute; reflexivity).
  vm_compute. reflexivity.
Defined.

(** ** Mouse look *)

Lemma set_mouse_look_enabled_on {R} `{Robot R} (w : @World R) :
  set_mouse_look_enabled true w =
  Return tt (set_is_mouse_look_enabled true (fst w), snd w).
Proof. reflexivity. Qed.

Lemma set_mouse_look_enabled_off {R} `{Robot R} (w : @World R) :
  set_mouse_look_enabled false w =
  let s' := set_mouse_dir 0%Q (set_is_mouse_look_enabled false (fst w)) in
  Return tt
    (s',
     if is_mouse_look_enabled (fst w) then
       set_head_motor (head_velocity s')
         (set_wheel_motors (fst (wheel_speeds s')) (snd (wheel_speeds s'))
            (fst (wheel_speeds s') * 4)%Q (snd (wheel_speeds s') * 4)%Q (snd w))
     else snd w).
Proof.
  destruct w as [s r]. destruct s.
  unfold set_mouse_look_enabled, bind, get_self, modify_self.
  cbn [fst snd is_mouse_look_enabled negb set_is_mouse_look_enabled set_mouse_dir].
  destruct is_mouse_look_enabled0; reflexivity.
Qed.

(** C6: disabling mouse look on a session where it was enabled sets
    [mouse_dir] to 0 and issues the wheel command and the head command once
    each, computed from the updated session; enabling it, or disabling it
    when it was already disabled, issues no command; disabling twice in a
    row ends in the same state as disabling once. *)
Theorem set_mouse_look_enabled_recompute {R} `{Robot R} (w : @World R) :
  (is_mouse_look_enabled (fst w) = true ->
   exists s',
     s' = set_mouse_dir 0%Q (set_is_mouse_look_enabled false (fst w))
     /\ mouse_dir s' = 0%Q
     /\ is_mouse_look_enabled s' = false
     /\ set_mouse_look_enabled false w =
        Return tt
          (s',
           set_head_motor (head_velocity s')
             (set_wheel_motors (fst (wheel_speeds s')) (snd (wheel_speeds s'))
                (fst (wheel_speeds s') * 4)%Q (snd (wheel_speeds s') * 4)%Q
                (snd w))))
  /\ set_mouse_look_enabled true w =
     Return tt (set_is_mouse_look_enabled true (fst w), snd w)
  /\ (is_mouse_look_enabled (fst w) = false ->
      set_mouse_look_enabled false w =
      Return tt (set_mouse_dir 0%Q (fst w), snd w))
  /\ final (set_mouse_look_enabled false (final (set_mouse_look_enabled false w)))
     = final (set_mouse_look_enabled false w).
Proof.
  split; [|split; [|split]].
  - intros Hwas. eexists. split; [reflexivity|].
    split; [destruct w as [[] r]; reflexivity|].
    split; [destruct w as [[] r]; reflexivity|].
    rewrite set_mouse_look_enabled_off. cbv zeta. rewrite Hwas. reflexivity.
  - apply set_mouse_look_enabled_on.
  - intros Hwas. rewrite set_mouse_look_enabled_off. cbv zeta. rewrite Hwas.
    destruct w as [[] r]. cbn in Hwas. subst. reflexivity.
  - rewrite !set_mouse_look_enabled_off. cbv zeta. cbn [final fst snd].
    destruct w as [[] r]. reflexivity.
Qed.

Lemma set_mouse_look_enabled_recompute_witness :
  (mouse_dir (fst looking_right) == 1.5)%Q
  /\ mouse_dir (fst (final (set_mouse_look_enabled false looking_right))) = 0%Q
  /\ commands (snd (final (set_mouse_look_enabled false looking_right))) =
     (commands (snd looking_right) ++
      [WheelMotors ((0 - 0) * 75 + 50 * (0 - 0 + 0))%Q
         ((0 - 0) * 75 - 50 * (0 - 0 + 0))%Q
         (((0 - 0) * 75 + 50 * (0 - 0 + 0)) * 4)%Q
         (((0 - 0) * 75 - 50 * (0 - 0 + 0)) * 4)%Q;
       HeadMotor ((0 - 0) * 1)%Q])%list
  /\ set_mouse_look_enabled false (demo_world []) =
     Return tt (set_mouse_dir 0%Q (fst (demo_world [])), snd (demo_world [])).
Proof.
  split; [vm_compute; reflexivity|].
  destruct (set_mouse_look_enabled_recompute looking_right)
    as (Hoff & _ & _ & _).
  destruct Hoff as (s' & Hs' & Hdir & _ & Hrun); [reflexivity|].
  rewrite Hrun. cbn [final fst snd]. split; [exact Hdir|]. split.
  - rewrite Hs'. vm_compute. reflexivity.
  - apply (proj1 (proj2 (proj2
      (set_mouse_look_enabled_recompute (demo_world []))))).
    reflexivity.
Defined.

(** ** Key events *)

Lemma same_config_refl (s : Session) : same_config s s.
Proof. repeat split. Qed.

Lemma same_config_trans (s1 s2 s3 : Session) :
  same_config s1 s2 -> same_config s2 s3 -> same_config s1 s3.
Proof.
  unfold same_config. intros (?&?&?&?&?) (?&?&?&?&?).
  repeat split; congruence.
Qed.

Lemma same_config_set_action_queue (q : list Action) (s : Session) :
  same_config s (set_action_queue q s).
Proof. destruct s. repeat split. Qed.

Lemma bind_run {W A B} (m : M W A) (k : A -> M W B) (w w' : W) (a : A) :
  m w = Return a w' -> bind m k w = k a w'.
Proof. intros Hm. unfold bind. rewrite Hm. reflexivity. Qed.

Lemma bind_raise {W A B} (m : M W A) (k : A -> M W B) (w w' : W) (e : exn) :
  m w = Raise e w' -> bind m k w = Raise e w'.
Proof. intros Hm. unfold bind. rewrite Hm. reflexivity. Qed.

Ltac run_step := erewrite bind_run by reflexivity; cbv beta zeta.

Ltac split_ifs :=
  repeat match goal with
         | |- context [if ?b then _ else _] =>
             lazymatch b with
             | context [if _ then _ else _] => fail
             | _ => destruct b eqn:?
             end
         end.

Lemma update_drive_state_run {R} `{Robot R} key_code is_key_down speed_changed
    (w : @World R) :
  exists flag s',
    update_drive_state key_code is_key_down speed_changed w = Return flag (s', snd w)
    /\ keeps_rest (fst w) s'.
Proof.
  destruct w as [[] r].
  unfold update_drive_state, bind, modify_self, ret. cbn [fst snd].
  split_ifs; eexists _, _; (split; [reflexivity|]);
    unfold keeps_rest, same_config; cbn; repeat split.
Qed.

Lemma update_lift_state_run {R} `{Robot R} key_code is_key_down speed_changed
    (w : @World R) :
  exists flag s',
    update_lift_state key_code is_key_down speed_changed w = Return flag (s', snd w)
    /\ keeps_rest (fst w) s'.
Proof.
  destruct w as [[] r].
  unfold update_lift_state, bind, modify_self, ret. cbn [fst snd].
  split_ifs; eexists _, _; (split; [reflexivity|]);
    unfold keeps_rest, same_config; cbn; repeat split.
Qed.

Lemma update_head_state_run {R} `{Robot R} key_code is_key_down speed_changed
    (w : @World R) :
  exists flag s',
    update_head_state key_code is_key_down speed_changed w = Return flag (s', snd w)
    /\ keeps_rest (fst w) s'.
Proof.
  destruct w as [[] r].
  unfold update_head_state, bind, modify_self, ret. cbn [fst snd].
  split_ifs; eexists _, _; (split; [reflexivity|]);
    unfold keeps_rest, same_config; cbn; repeat split.
Qed.

Lemma keeps_rest_trans (s1 s2 s3 : Session) :
  keeps_rest s1 s2 -> keeps_rest s2 s3 -> keeps_rest s1 s3.
Proof.
  unfold keeps_rest. intros (?&?&?&?) (?&?&?&?).
  split; [eapply same_config_trans; eassumption|].
  repeat split; congruence.
Qed.

(** [handle_key] first updates modifiers, held keys and motors, which always
    returns and leaves the queue and the configuration alone, and then runs
    the release part. *)
Lemma handle_key_runs {R} `{Robot R} key_code is_shift_down is_alt_down
    is_key_down (w : @World R) :
  exists w1,
    handle_key key_code is_shift_down is_alt_down is_key_down w =
    key_release key_code is_key_down w1
    /\ same_config (fst w) (fst w1)
    /\ action_queue (fst w1) = action_queue (fst w).
Proof.
  destruct w as [s r]. unfold handle_key.
  do 4 run_step. cbn [fst snd].
  set (s1 := set_go_slow is_alt_down (set_go_fast is_shift_down s)).
  assert (Hs1 : same_config s s1 /\ action_queue s1 = action_queue s).
  { subst s1. destruct s. unfold same_config. cbn. repeat split. }
  destruct Hs1 as [Hc1 Hq1].
  set (speed_changed := _ || _).
  destruct (update_drive_state_run key_code is_key_down speed_changed (s1, r))
    as (f1 & s2 & Hrun1 & Hc2 & Hq2 & _).
  rewrite (bind_run _ _ _ _ _ Hrun1). cbv beta. cbn [fst snd] in *.
  destruct (update_lift_state_run key_code is_key_down speed_changed (s2, r))
    as (f2 & s3 & Hrun2 & Hc3 & Hq3 & _).
  rewrite (bind_run _ _ _ _ _ Hrun2). cbv beta. cbn [fst snd] in *.
  destruct (update_head_state_run key_code is_key_down speed_changed (s3, r))
    as (f3 & s4 & Hrun3 & Hc4 & Hq4 & _).
  rewrite (bind_run _ _ _ _ _ Hrun3). cbv beta. cbn [fst snd] in *.
  assert (Hc : same_config s s4).
  { apply (same_config_trans _ s1); [assumption|].
    apply (same_config_trans _ s2); [assumption|].
    apply (same_config_trans _ s3); assumption. }
  assert (Hq : action_queue s4 = action_queue s) by congruence.
  assert (Hdrive : forall (f : bool) (w0 : @World R), exists r0,
             (if f then update_mouse_driving else ret tt) w0 = Return tt (fst w0, r0)).
  { intros [] [s0 r0]; [rewrite update_mouse_driving_eq|]; eexists; reflexivity. }
  assert (Hhead : forall (f : bool) (w0 : @World R), exists r0,
             (if f then update_head else ret tt) w0 = Return tt (fst w0, r0)).
  { intros [] [s0 r0]; [rewrite update_head_eq|]; eexists; reflexivity. }
  assert (Hlift : forall (f : bool) (w0 : @World R), exists r0,
             (if f then update_lift else ret tt) w0 = Return tt (fst w0, r0)).
  { intros [] [s0 r0]; [rewrite update_lift_eq|]; eexists; reflexivity. }
  destruct (Hdrive f1 (s4, r)) as (r1 & Hd).
  rewrite (bind_run _ _ _ _ _ Hd). cbn [fst].
  destruct (Hhead f3 (s4, r1)) as (r2 & Hh).
  rewrite (bind_run _ _ _ _ _ Hh). cbn [fst].
  destruct (Hlift f2 (s4, r2)) as (r3 & Hl).
  rewrite (bind_run _ _ _ _ _ Hl). cbn [fst].
  exists (s4, r3). split; [reflexivity|]. split; assumption.
Qed.

Lemma key_release_down {R} `{Robot R} key_code (w : @World R) :
  key_release key_code true w = Return tt w.
Proof. reflexivity. Qed.

Lemma key_code_to_anim_name_run {R} `{Robot R} (digit j : Z) (name : string)
    (w : @World R) :
  py_getitem (anim_index_for_key (fst w)) digit = Some j ->
  py_getitem (anim_names (fst w)) j = Some name ->
  key_code_to_anim_name (ord "0" + digit) w = Return name w.
Proof.
  intros Hj Hname. destruct w as [s r]. cbn [fst] in *.
  unfold key_code_to_anim_name. run_step. cbn [fst].
  replace (ord "0" + digit - ord "0") with digit by lia.
  unfold getitem. rewrite Hj. run_step. rewrite Hname. run_step.
  reflexivity.
Qed.

Lemma key_release_digit {R} `{Robot R} (digit j : Z) (name : string)
    (w : @World R) :
  0 <= digit <= 9 ->
  py_getitem (anim_index_for_key (fst w)) digit = Some j ->
  py_getitem (anim_names (fst w)) j = Some name ->
  key_release (ord "0" + digit) false w = queue_action (play_animation, name) w.
Proof.
  intros Hdigit Hj Hname.
  unfold key_release. cbn [negb].
  replace ((ord "9" >=? ord "0" + digit) && (ord "0" + digit >=? ord "0"))
    with true
    by (symmetry; apply andb_true_iff; change (ord "9") with 57;
        change (ord "0") with 48; lia).
  rewrite (bind_run _ _ _ _ _ (key_code_to_anim_name_run digit j name w Hj Hname)).
  reflexivity.
Qed.

Lemma key_release_space {R} `{Robot R} (w : @World R) :
  key_release (ord " ") false w = queue_action (say_text, text_to_say (fst w)) w.
Proof.
  destruct w as [s r]. unfold key_release. cbn [negb].
  change ((ord "9" >=? ord " ") && (ord " " >=? ord "0")) with false.
  change (ord " " =? ord " ") with true. cbv iota.
  run_step. reflexivity.
Qed.

Lemma key_release_other {R} `{Robot R} key_code (w : @World R) :
  ~ (ord "0" <= key_code <= ord "9") -> key_code <> ord " " ->
  key_release key_code false w = Return tt w.
Proof.
  intros Hdigit Hspace. unfold key_release. cbn [negb].
  replace ((ord "9" >=? key_code) && (key_code >=? ord "0")) with false
    by (symmetry; apply andb_false_iff; lia).
  replace (key_code =? ord " ") with false
    by (symmetry; apply Z.eqb_neq; exact Hspace).
  reflexivity.
Qed.

(** C4: a key-up of digit key [d], with [anim_index_for_key[d] = j] and
    [anim_names[j] = name], enqueues exactly the action
    [(play_animation, name)]; a key-up of the space key enqueues exactly the
    action [(say_text, text_to_say)] with the text of that moment, and a
    later change of [text_to_say] leaves the queue as it is; any other
    key-up, and any key-down, leaves the queue as it is.  Enqueuing is
    [queue_action]: the oldest entry goes first when the queue is full. *)
Theorem handle_key_release_enqueues {R} `{Robot R} (w : @World R)
    (key_code digit j : Z) (name text_entered : string)
    (is_shift_down is_alt_down : bool) :
  let queue := action_queue (fst w) in
  let enqueued new_action :=
    ((if 10 <? Z.of_nat (length queue) then drop 1 queue else queue)
     ++ [new_action])%list in
  (0 <= digit <= 9 ->
   py_getitem (anim_index_for_key (fst w)) digit = Some j ->
   py_getitem (anim_names (fst w)) j = Some name ->
   exists w',
     handle_key (ord "0" + digit) is_shift_down is_alt_down false w = Return tt w'
     /\ action_queue (fst w') = enqueued (play_animation, name))
  /\ (exists w',
        handle_key (ord " ") is_shift_down is_alt_down false w = Return tt w'
        /\ action_queue (fst w') = enqueued (say_text, text_to_say (fst w))
        /\ action_queue (fst (final (handle_sayText text_entered w'))) =
           action_queue (fst w'))
  /\ (~ (ord "0" <= key_code <= ord "9") -> key_code <> ord " " ->
      exists w',
        handle_key key_code is_shift_down is_alt_down false w = Return tt w'
        /\ action_queue (fst w') = queue)
  /\ (exists w',
        handle_key key_code is_shift_down is_alt_down true w = Return tt w'
        /\ action_queue (fst w') = queue).
Proof.
  cbv zeta. split; [|split; [|split]].
  - intros Hdigit Hj Hname.
    destruct (handle_key_runs (ord "0" + digit) is_shift_down is_alt_down false w)
      as (w1 & Hrun & (Hnames & Htable & _) & Hq).
    rewrite Hrun.
    rewrite (key_release_digit digit j name w1) by congruence.
    rewrite queue_action_eq. eexists. split; [reflexivity|].
    cbn [fst]. rewrite action_queue_set_action_queue, Hq. reflexivity.
  - destruct (handle_key_runs (ord " ") is_shift_down is_alt_down false w)
      as (w1 & Hrun & (_ & _ & Htext & _) & Hq).
    rewrite Hrun, key_release_space, queue_action_eq.
    eexists. split; [reflexivity|]. cbn [fst final handle_sayText modify_self].
    rewrite set_action_queue_twice || idtac.
    rewrite action_queue_set_action_queue, Hq, Htext.
    split; [reflexivity|].
    destruct (fst w1). reflexivity.
  - intros Hdigit Hspace.
    destruct (handle_key_runs key_code is_shift_down is_alt_down false w)
      as (w1 & Hrun & _ & Hq).
    rewrite Hrun, key_release_other by assumption.
    exists w1. split; [reflexivity | exact Hq].
  - destruct (handle_key_runs key_code is_shift_down is_alt_down true w)
      as (w1 & Hrun & _ & Hq).
    rewrite Hrun, key_release_down.
    exists w1. split; [reflexivity | exact Hq].
Qed.

Lemma handle_key_release_enqueues_witness :
  (exists w',
      handle_key (ord "5") false false false key5_bound = Return tt w'
      /\ action_queue (fst w') = [(play_animation, "anim_x")])
  /\ (exists w',
        handle_key (ord "W") false false false key5_bound = Return tt w'
        /\ action_queue (fst w') = []).
Proof.
  destruct (handle_key_release_enqueues key5_bound (ord "W") 5 1 "anim_x" "bye"
              false false) as (Hdigit & _ & Hother & _).
  split.
  - apply Hdigit; [lia | reflexivity | reflexivity].
  - apply Hother; [vm_compute; intros [Hlo Hhi]; apply Hhi; reflexivity
                  | discriminate].
Defined.

(** ** Key bindings *)

Lemma set_anim_eq {R} `{Robot R} (key_index anim_index : Z) (w : @World R) :
  set_anim key_index anim_index w =
  match py_setitem (anim_index_for_key (fst w)) key_index anim_index with
  | Some table => Return tt (set_anim_index_for_key table (fst w), snd w)
  | None => Raise IndexError w
  end.
Proof.
  destruct w as [s r]. unfold set_anim. run_step. cbn [fst].
  destruct (py_setitem (anim_index_for_key s) key_index anim_index);
    reflexivity.
Qed.

Lemma py_setitem_length {A} (l l' : list A) (i : Z) (v : A) :
  py_setitem l i v = Some l' -> length l' = length l.
Proof.
  unfold py_setitem. intros Hset.
  destruct ((0 <=? i) && (i <? Z.of_nat (length l)));
    [|destruct ((- Z.of_nat (length l) <=? i) && (i <? 0))];
    inversion Hset; subst; try apply length_insert.
Qed.

Lemma py_setitem_in_range {A} (l : list A) (i : Z) (v : A) :
  0 <= i < Z.of_nat (length l) ->
  py_setitem l i v = Some (<[Z.to_nat i := v]> l).
Proof.
  intros Hi. unfold py_setitem.
  replace ((0 <=? i) && (i <? Z.of_nat (length l))) with true
    by (symmetry; apply andb_true_iff; lia).
  reflexivity.
Qed.

Lemma py_setitem_negative {A} (l : list A) (i : Z) (v : A) :
  - Z.of_nat (length l) <= i < 0 ->
  py_setitem l i v = Some (<[Z.to_nat (Z.of_nat (length l) + i) := v]> l).
Proof.
  intros Hi. unfold py_setitem.
  replace ((0 <=? i) && (i <? Z.of_nat (length l))) with false
    by (symmetry; apply andb_false_iff; lia).
  replace ((- Z.of_nat (length l) <=? i) && (i <? 0)) with true
    by (symmetry; apply andb_true_iff; lia).
  reflexivity.
Qed.

Lemma py_setitem_out_of_range {A} (l : list A) (i : Z) (v : A) :
  i < - Z.of_nat (length l) \/ Z.of_nat (length l) <= i ->
  py_setitem l i v = None.
Proof.
  intros Hi. unfold py_setitem.
  replace ((0 <=? i) && (i <? Z.of_nat (length l))) with false
    by (symmetry; apply andb_false_iff; lia).
  replace ((- Z.of_nat (length l) <=? i) && (i <? 0)) with false
    by (symmetry; apply andb_false_iff; lia).
  reflexivity.
Qed.

Lemma py_getitem_in_range {A} (l : list A) (i : Z) :
  0 <= i < Z.of_nat (length l) -> py_getitem l i = l !! Z.to_nat i.
Proof.
  intros Hi. unfold py_getitem.
  replace ((0 <=? i) && (i <? Z.of_nat (length l))) with true
    by (symmetry; apply andb_true_iff; lia).
  reflexivity.
Qed.

(** ** What a request can change *)

Lemma handle_mouse_session {R} `{Robot R} (mouse_x mouse_y : Q) (w : @World R) :
  fst (final (handle_mouse mouse_x mouse_y w)) =
  if is_mouse_look_enabled (fst w)
  then set_mouse_dir (remap_to_range mouse_x 0%Q 1%Q (- 1.5)%Q 1.5%Q) (fst w)
  else fst w.
Proof.
  destruct w as [s r]. unfold handle_mouse. run_step. cbn [fst].
  destruct (is_mouse_look_enabled s); [|reflexivity].
  run_step. rewrite (bind_run _ _ _ _ _ (update_mouse_driving_eq _)).
  run_step. reflexivity.
Qed.

Lemma key_code_to_anim_name_final {R} `{Robot R} key_code (w : @World R) :
  (exists name, key_code_to_anim_name key_code w = Return name w)
  \/ key_code_to_anim_name key_code w = Raise IndexError w.
Proof.
  destruct w as [s r]. unfold key_code_to_anim_name. run_step. cbn [fst].
  unfold getitem.
  destruct (py_getitem (anim_index_for_key s) (key_code - ord "0")) as [j|];
    [|right; reflexivity].
  run_step.
  destruct (py_getitem (anim_names s) j) as [name|]; [|right; reflexivity].
  left. exists name. reflexivity.
Qed.

Lemma key_release_config {R} `{Robot R} key_code is_key_down (w : @World R) :
  same_config (fst w) (fst (final (key_release key_code is_key_down w))).
Proof.
  unfold key_release.
  destruct (negb is_key_down); [|apply same_config_refl].
  destruct ((ord "9" >=? key_code) && (key_code >=? ord "0")).
  - destruct (key_code_to_anim_name_final key_code w) as [[name Hrun]|Hrun].
    + rewrite (bind_run _ _ _ _ _ Hrun), queue_action_eq. cbn [final fst].
      apply same_config_set_action_queue.
    + rewrite (bind_raise _ _ _ _ _ Hrun). apply same_config_refl.
  - destruct (key_code =? ord " "); [|apply same_config_refl].
    rewrite (bind_run get_self _ w w (fst w) eq_refl), queue_action_eq.
    cbn [final fst]. apply same_config_set_action_queue.
Qed.

Lemma update_config {R} `{Robot R} (w : @World R) :
  same_config (fst w) (fst (final (update w))).
Proof.
  destruct (action_queue (fst w)) as [|[func args] rest] eqn:Hq.
  - rewrite update_empty by exact Hq. apply same_config_refl.
  - rewrite (update_nonempty w func args rest Hq). cbn [final fst].
    destruct (fst (call_action func args (snd w)));
      [apply same_config_set_action_queue | apply same_config_refl].
Qed.

Lemma handle_updateVector_final {R} `{Robot R} (w : @World R) :
  final ((handle_updateVector ;;; ret tt) w) = final (update w).
Proof.
  unfold handle_updateVector, bind.
  destruct (update w) as [[] w1|e w1]; reflexivity.
Qed.

(** Every request keeps the list of animations; only a drop-down selection
    writes the key table, and only with a Python item assignment; the mouse
    direction is kept, reset to 0, or set to a remapped mouse position. *)
Lemma handle_effect {R} `{Robot R} (req : Request) (w : @World R) :
  let s := fst w in
  let s' := fst (final (handle req w)) in
  anim_names s' = anim_names s
  /\ (anim_index_for_key s' = anim_index_for_key s
      \/ exists key_index anim_index,
           req = DropDownSelect key_index anim_index
           /\ py_setitem (anim_index_for_key s) key_index anim_index
              = Some (anim_index_for_key s'))
  /\ (mouse_dir s' = mouse_dir s
      \/ mouse_dir s' = 0%Q
      \/ exists x, mouse_dir s' = remap_to_range x 0%Q 1%Q (- 1.5)%Q 1.5%Q).
Proof.
  cbv zeta. destruct req; cbn [handle].
  - destruct (handle_key_runs key_code has_shift has_alt is_key_down w)
      as (w1 & Hrun & Hc1 & _).
    rewrite Hrun.
    destruct (same_config_trans _ _ _ Hc1
                (key_release_config key_code is_key_down w1))
      as (Hn & Ht & _ & Hm & _).
    split; [exact Hn|]. split; left; assumption.
  - rewrite handle_mouse_session.
    destruct (is_mouse_look_enabled (fst w)).
    + destruct (fst w). cbn. split; [reflexivity|].
      split; [left; reflexivity|]. right. right. eexists. reflexivity.
    + split; [reflexivity|]. split; left; reflexivity.
  - destruct enabled.
    + rewrite set_mouse_look_enabled_on. cbn [final fst].
      destruct (fst w). cbn. split; [reflexivity|]. split; left; reflexivity.
    + rewrite set_mouse_look_enabled_off. cbv zeta. cbn [final fst].
      destruct (fst w). cbn. split; [reflexivity|].
      split; [left; reflexivity|]. right. left. reflexivity.
  - rewrite set_anim_eq.
    destruct (py_setitem (anim_index_for_key (fst w)) item_name_index
                selected_index) as [table|] eqn:Hset; cbn [final fst].
    + destruct (fst w). cbn in *. split; [reflexivity|].
      split; [|left; reflexivity].
      right. exists item_name_index, selected_index.
      split; [reflexivity | exact Hset].
    + split; [reflexivity|]. split; left; reflexivity.
  - destruct w as [[] r]. cbn. split; [reflexivity|]. split; left; reflexivity.
  - pose proof (update_config w) as (Hn & Ht & _ & Hm & _).
    rewrite handle_updateVector_final.
    split; [exact Hn|]. split; left; assumption.
Qed.

(** ** Invariants of the served session *)

Lemma serve_snoc {R} `{Robot R} (w : @World R) (reqs : list Request)
    (req : Request) :
  serve w (reqs ++ [req]) = final (handle req (serve w reqs)).
Proof. unfold serve. rewrite fold_left_app. reflexivity. Qed.

Lemma serve_anim_names {R} `{Robot R} (w : @World R) (reqs : list Request) :
  anim_names (fst (serve w reqs)) = anim_names (fst w).
Proof.
  induction reqs as [|req reqs IH] using rev_ind; [reflexivity|].
  rewrite serve_snoc.
  destruct (handle_effect req (serve w reqs)) as (Hn & _).
  congruence.
Qed.

Lemma serve_table_length {R} `{Robot R} (w : @World R) (reqs : list Request) :
  length (anim_index_for_key (fst (serve w reqs))) =
  length (anim_index_for_key (fst w)).
Proof.
  induction reqs as [|req reqs IH] using rev_ind; [reflexivity|].
  rewrite serve_snoc.
  destruct (handle_effect req (serve w reqs))
    as (_ & [Hsame|(k & a & _ & Hset)] & _).
  - congruence.
  - apply py_setitem_length in Hset. congruence.
Qed.

(** The key table that [__init__] builds, entry by entry. *)
Lemma init_table {R} `{Robot R} (robot : R) :
  anim_index_for_key (init robot) =
  imap (fun kI default_key =>
          match py_index (anim_names (init robot)) default_key with
          | Some i => i
          | None => Z.of_nat kI
          end) default_anims_for_keys.
Proof. reflexivity. Qed.

Lemma init_table_length {R} `{Robot R} (robot : R) :
  length (anim_index_for_key (init robot)) = 10%nat.
Proof. reflexivity. Qed.

(** ** Drop-down selections *)

(** C7 (as the code has it): on a served session the key table has ten
    entries and [set_anim] does no range check of its own.  A slot below -10
    or above 9 raises [IndexError] and leaves session and robot as they
    were; a slot from -10 to -1 counts from the end of the table and
    overwrites entry [10 + slot]; nothing else in the session changes. *)
Theorem set_anim_outside_digits {R} `{Robot R} (robot : R)
    (reqs : list Request) (key_index anim_index : Z) :
  let w := serve (init robot, robot) reqs in
  (key_index < -10 \/ 9 < key_index ->
   set_anim key_index anim_index w = Raise IndexError w)
  /\ (-10 <= key_index <= -1 ->
      set_anim key_index anim_index w =
      Return tt
        (set_anim_index_for_key
           (<[Z.to_nat (10 + key_index) := anim_index]>
              (anim_index_for_key (fst w))) (fst w),
         snd w)).
Proof.
  cbv zeta.
  pose proof (serve_table_length (init robot, robot) reqs) as Hlen.
  cbn [fst] in Hlen. rewrite init_table_length in Hlen.
  split; intros Hslot; rewrite set_anim_eq.
  - rewrite py_setitem_out_of_range by (rewrite Hlen; lia). reflexivity.
  - rewrite py_setitem_negative by (rewrite Hlen; lia).
    rewrite Hlen. reflexivity.
Qed.

Lemma set_anim_outside_digits_witness :
  set_anim 10 0 (demo_world []) = Raise IndexError (demo_world [])
  /\ set_anim (-1) 0 (demo_world []) =
     Return tt
       (set_anim_index_for_key
          (<[9%nat := 0]> (anim_index_for_key (fst (demo_world []))))
          (fst (demo_world [])),
        snd (demo_world [])).
Proof.
  split.
  - apply (proj1 (set_anim_outside_digits (demo_robot []) [] 10 0)). lia.
  - apply (proj2 (set_anim_outside_digits (demo_robot []) [] (-1) 0)). lia.
Defined.

(** C7, the claim as stated fails: on the fresh demo session, slot 10 makes
    [set_anim] raise [IndexError], and slot -1 overwrites the binding of
    key 9. *)
Lemma set_anim_out_of_range_not_ignored :
  returned (set_anim 10 0 (demo_world [])) = false
  /\ set_anim 10 0 (demo_world []) = Raise IndexError (demo_world [])
  /\ anim_index_for_key (fst (demo_world [])) = [0; 1; 2; 3; 4; 5; 6; 7; 8; 9]
  /\ anim_index_for_key (fst (final (set_anim (-1) 0 (demo_world [])))) =
     [0; 1; 2; 3; 4; 5; 6; 7; 8; 0].
Proof. repeat split. Qed.

(** ** Validity of the key table *)

Lemma py_index_bound (names : list string) (x : string) (j : Z) :
  py_index names x = Some j -> valid_index names j.
Proof.
  unfold valid_index. revert j.
  induction names as [|y names IH]; intros j Hj; [discriminate|].
  cbn [py_index] in Hj. cbn [length].
  destruct (String.eqb y x).
  - inversion Hj. lia.
  - destruct (py_index names x) as [i|]; [|discriminate].
    inversion Hj. specialize (IH i eq_refl). lia.
Qed.

Lemma py_index_found (names : list string) (x : string) (j : Z) :
  py_index names x = Some j -> py_getitem names j = Some x.
Proof.
  revert j. induction names as [|y names IH]; intros j Hj; [discriminate|].
  cbn [py_index] in Hj.
  destruct (String.eqb y x) eqn:Hyx.
  - inversion Hj. apply String.eqb_eq in Hyx. subst. reflexivity.
  - destruct (py_index names x) as [i|] eqn:Hi; [|discriminate].
    inversion Hj. subst j.
    pose proof (py_index_bound names x i Hi) as Hb. unfold valid_index in Hb.
    specialize (IH i eq_refl).
    rewrite py_getitem_in_range in IH by lia.
    rewrite py_getitem_in_range by (cbn [length]; lia).
    replace (Z.to_nat (i + 1)) with (S (Z.to_nat i)) by lia.
    exact IH.
Qed.

Lemma init_bindings_valid {R} `{Robot R} (robot : R) :
  (10 <= length (anim_names (init robot)))%nat ->
  bindings_valid (init robot).
Proof.
  intros Hlen. unfold bindings_valid. rewrite init_table.
  set (names := anim_names (init robot)) in *.
  cbv [imap default_anims_for_keys compose].
  repeat (apply Forall_cons_2; [
    match goal with
    | |- valid_index _ (match py_index names ?d with _ => _ end) =>
        destruct (py_index names d) as [i|] eqn:Hi;
        [exact (py_index_bound names d i Hi)
        | unfold valid_index; lia]
    end |]).
  apply Forall_nil_2.
Qed.

Lemma py_setitem_Forall {A} (P : A -> Prop) (l l' : list A) (i : Z) (v : A) :
  Forall P l -> P v -> py_setitem l i v = Some l' -> Forall P l'.
Proof.
  unfold py_setitem. intros Hl Hv Hset.
  destruct ((0 <=? i) && (i <? Z.of_nat (length l)));
    [|destruct ((- Z.of_nat (length l) <=? i) && (i <? 0))];
    inversion Hset; subst; apply Forall_insert; assumption.
Qed.

(** C8 (as the code has it): [__init__] binds key [kI] to the position of
    its default animation in [anim_names], and to [kI] itself when the
    default is missing, without looking at the length of [anim_names]; and
    [set_anim] stores the selected index unchecked.  So when [anim_names]
    has at least ten entries every binding is a valid index at creation,
    and the bindings stay valid through every series of requests whose
    drop-down selections are indices of [anim_names]. *)
Theorem bindings_valid_preserved {R} `{Robot R} (robot : R)
    (reqs : list Request) :
  anim_index_for_key (init robot) =
  imap (fun kI default_key =>
          match py_index (anim_names (init robot)) default_key with
          | Some i => i
          | None => Z.of_nat kI
          end) default_anims_for_keys
  /\ (forall default_key j,
        py_index (anim_names (init robot)) default_key = Some j ->
        py_getitem (anim_names (init robot)) j = Some default_key)
  /\ ((10 <= length (anim_names (init robot)))%nat ->
      Forall (selects_within (anim_names (init robot))) reqs ->
      bindings_valid (fst (serve (init robot, robot) reqs))
      /\ length (anim_index_for_key (fst (serve (init robot, robot) reqs)))
         = 10%nat).
Proof.
  split; [apply init_table|]. split; [apply py_index_found|].
  intros Hlen Hreqs. split.
  - induction reqs as [|req reqs IH] using rev_ind.
    + apply init_bindings_valid. exact Hlen.
    + apply Forall_app in Hreqs as [Hreqs Hreq].
      apply Forall_cons_1 in Hreq as [Hreq _].
      specialize (IH Hreqs). unfold bindings_valid in *.
      rewrite serve_snoc.
      destruct (handle_effect req (serve (init robot, robot) reqs))
        as (Hn & [Hsame|(k & a & -> & Hset)] & _); rewrite Hn.
      * rewrite Hsame. exact IH.
      * rewrite serve_anim_names in *. cbn [selects_within fst] in *.
        exact (py_setitem_Forall _ _ _ _ _ IH Hreq Hset).
  - rewrite serve_table_length. apply init_table_length.
Qed.

Lemma bindings_valid_preserved_witness :
  bindings_valid
    (fst (serve (init full_robot, full_robot)
            [DropDownSelect 3 9; KeyEvent (ord "3") false false false;
             DropDownSelect (-1) 0; DropDownSelect 12 4]))
  /\ py_getitem (anim_names (init full_robot)) 9 = Some "anim_wakeword_groggyeyes_listenloop_01".
Proof.
  destruct (bindings_valid_preserved full_robot
              [DropDownSelect 3 9; KeyEvent (ord "3") false false false;
               DropDownSelect (-1) 0; DropDownSelect 12 4])
    as (_ & Hfound & Hvalid).
  split.
  - apply Hvalid.
    + vm_compute. lia.
    + repeat (apply Forall_cons_2; [vm_compute; try split; congruence|]).
      apply Forall_nil_2.
  - apply Hfound. reflexivity.
Defined.

(** C8, the claim as stated fails: a session created on a robot without
    animations binds key [kI] to [kI] although [anim_names] is empty, so no
    binding is a valid index and releasing key 0 raises [IndexError]; and on
    a robot with ten animations, selecting entry 10 for key 0 leaves key 0
    bound outside the list. *)
Lemma bindings_not_always_valid :
  anim_names (init bare_robot) = []
  /\ anim_index_for_key (init bare_robot) = [0; 1; 2; 3; 4; 5; 6; 7; 8; 9]
  /\ ~ bindings_valid (init bare_robot)
  /\ handle_key (ord "0") false false false (init bare_robot, bare_robot)
     = Raise IndexError (init bare_robot, bare_robot)
  /\ bindings_valid (init full_robot)
  /\ ~ bindings_valid
         (fst (serve (init full_robot, full_robot) [DropDownSelect 0 10])).
Proof.
  split; [reflexivity|]. split; [reflexivity|]. split.
  { intros Hv. apply Forall_cons_1 in Hv as [[_ Hv] _]. vm_compute in Hv.
    discriminate. }
  split; [reflexivity|]. split.
  { unfold bindings_valid.
    repeat (apply Forall_cons_2; [vm_compute; split; congruence|]).
    apply Forall_nil_2. }
  intros Hv. apply Forall_cons_1 in Hv as [[_ Hv] _]. vm_compute in Hv.
  discriminate.
Qed.

(** ** The queue as text *)

Lemma append_assoc (a b c : string) : (a ++ b) ++ c = a ++ (b ++ c).
Proof.
  induction a as [|ch a IH]; [reflexivity|].
  cbn [append]. rewrite IH. reflexivity.
Qed.

Lemma append_empty_r (a : string) : a ++ "" = a.
Proof.
  induction a as [|ch a IH]; [reflexivity|].
  cbn [append]. rewrite IH. reflexivity.
Qed.

Lemma action_queue_text_loop_listing (queue : list Action) :
  forall (i : nat) (out_text : string),
    action_queue_text_loop queue i out_text =
    out_text ++ listing bracket_line i queue.
Proof.
  induction queue as [|action rest IH]; intros i out_text.
  - cbn. rewrite append_empty_r. reflexivity.
  - cbn [action_queue_text_loop listing]. rewrite IH.
    unfold bracket_line. rewrite !append_assoc. reflexivity.
Qed.

Lemma update_vector_text_loop_listing (queue : list Action) :
  forall (i : nat) (text : string),
    update_vector_text_loop queue i text =
    text ++ listing colon_line i queue.
Proof.
  induction queue as [|action rest IH]; intros i text.
  - cbn. rewrite append_empty_r. reflexivity.
  - cbn [update_vector_text_loop listing]. rewrite IH.
    unfold colon_line. rewrite !append_assoc. reflexivity.
Qed.

(** C9 (as the code has it): [action_queue_to_text] returns the pending
    actions in queue order, each as ["[i] name( args )"] with [i] counting
    from 0, and changes neither the session nor the robot.  The listing
    that counts from 1 is the one [handle_updateVector] builds, after its
    drain step, from the queue that step left. *)
Theorem action_queue_to_text_listing {R} `{Robot R} (queue : list Action)
    (w : @World R) :
  action_queue_to_text queue w = Return (listing bracket_line 0 queue) w
  /\ handle_updateVector w =
     Return
       ("Action Queue:<br>"
        ++ listing colon_line 1 (action_queue (fst (final (update w))))
        ++ String "010"%char "")
       (final (update w)).
Proof.
  split.
  - unfold action_queue_to_text, ret.
    rewrite action_queue_text_loop_listing. reflexivity.
  - unfold handle_updateVector.
    assert (Hupd : update w = Return tt (final (update w))).
    { destruct (action_queue (fst w)) as [|[func args] rest] eqn:Hq.
      - rewrite update_empty by exact Hq. reflexivity.
      - rewrite (update_nonempty w func args rest Hq). reflexivity. }
    rewrite (bind_run _ _ _ _ _ Hupd). run_step. unfold ret.
    rewrite update_vector_text_loop_listing. reflexivity.
Qed.

(** C9, the claim as stated fails: the one pending action of the queue is
    listed under number 0, not 1. *)
Lemma action_queue_to_text_counts_from_zero :
  action_queue_to_text [(say_text, "hi")] (demo_world []) =
  Return "[0] say_text( hi )" (demo_world [])
  /\ action_queue_to_text [(say_text, "hi")] (demo_world []) <>
     Return "[1] say_text( hi )" (demo_world []).
Proof. split; [reflexivity | discriminate]. Qed.

(** * Further properties of the code *)

(** ** The list of animations *)

Lemma ascii_compare_lt_trans (a b c : ascii) :
  Ascii.compare a b = Lt -> Ascii.compare b c = Lt -> Ascii.compare a c = Lt.
Proof.
  unfold Ascii.compare. rewrite !N.compare_lt_iff. lia.
Qed.

Lemma string_compare_lt_trans (a : string) :
  forall b c,
    String.compare a b = Lt -> String.compare b c = Lt ->
    String.compare a c = Lt.
Proof.
  induction a as [|x a IH]; intros [|y b] [|z c]; cbn; try congruence.
  destruct (Ascii.compare x y) eqn:Hxy; try discriminate;
    destruct (Ascii.compare y z) eqn:Hyz; try discriminate; intros Hab Hbc.
  - apply Ascii.compare_eq_iff in Hxy, Hyz. subst.
    replace (Ascii.compare z z) with Eq
      by (symmetry; unfold Ascii.compare; apply N.compare_refl).
    eapply IH; eassumption.
  - apply Ascii.compare_eq_iff in Hxy. subst. rewrite Hyz. reflexivity.
  - apply Ascii.compare_eq_iff in Hyz. subst. rewrite Hxy. reflexivity.
  - rewrite (ascii_compare_lt_trans x y z Hxy Hyz). reflexivity.
Qed.

Lemma str_le_trans (a b c : string) : str_le a b -> str_le b c -> str_le a c.
Proof.
  unfold str_le, String.leb. intros Hab Hbc.
  destruct (String.compare a b) eqn:Cab; try discriminate;
    destruct (String.compare b c) eqn:Cbc; try discriminate.
  - apply String.compare_eq_iff in Cab. subst. rewrite Cbc. reflexivity.
  - apply String.compare_eq_iff in Cab. subst. rewrite Cbc. reflexivity.
  - apply String.compare_eq_iff in Cbc. subst. rewrite Cab. reflexivity.
  - rewrite (string_compare_lt_trans a b c Cab Cbc). reflexivity.
Qed.

Lemma sort_insert_perm (x : string) (l : list string) :
  Permutation (sort_insert x l) (x :: l).
Proof.
  induction l as [|y l IH]; cbn [sort_insert]; [reflexivity|].
  destruct (String.leb x y); [reflexivity|].
  rewrite IH. apply perm_swap.
Qed.

Lemma sort_insert_sorted (x : string) (l : list string) :
  StronglySorted str_le l -> StronglySorted str_le (sort_insert x l).
Proof.
  induction l as [|y l IH]; intros Hl; cbn [sort_insert].
  - constructor; [constructor | apply Forall_nil_2].
  - apply StronglySorted_inv in Hl as [Hl Hy].
    destruct (String.leb x y) eqn:Hxy.
    + constructor; [constructor; assumption|].
      apply Forall_cons_2; [exact Hxy|].
      eapply Forall_impl; [exact Hy|].
      intros z Hz. exact (str_le_trans x y z Hxy Hz).
    + constructor; [apply IH; exact Hl|].
      rewrite (sort_insert_perm x l).
      apply Forall_cons_2; [|exact Hy].
      destruct (String.leb_total x y) as [Hle|Hle]; [congruence | exact Hle].
Qed.

Lemma py_sort_perm (l : list string) : Permutation (py_sort l) l.
Proof.
  induction l as [|x l IH]; [reflexivity|].
  cbn [py_sort foldr]. rewrite sort_insert_perm. constructor. exact IH.
Qed.

Lemma py_sort_sorted (l : list string) : StronglySorted str_le (py_sort l).
Proof.
  induction l as [|x l IH]; [constructor|].
  cbn [py_sort foldr]. apply sort_insert_sorted. exact IH.
Qed.

Lemma filter_strongly_sorted (keep : string -> bool) (l : list string) :
  StronglySorted str_le l -> StronglySorted str_le (List.filter keep l).
Proof.
  induction 1 as [|x l Hl IH Hx]; cbn [List.filter]; [constructor|].
  destruct (keep x); [|exact IH].
  constructor; [exact IH|].
  apply Forall_forall. intros y Hy. apply list_elem_of_In in Hy.
  apply List.filter_In in Hy as [Hy _].
  rewrite Forall_forall in Hx. apply Hx. apply list_elem_of_In. exact Hy.
Qed.

Lemma filter_perm (keep : string -> bool) (l l' : list string) :
  Permutation l l' -> Permutation (List.filter keep l) (List.filter keep l').
Proof.
  induction 1 as [|x l l' _ IH|x y l|l l' l'' _ IH1 _ IH2];
    cbn [List.filter].
  - reflexivity.
  - destruct (keep x); [constructor|]; exact IH.
  - destruct (keep x), (keep y); try reflexivity. apply perm_swap.
  - etransitivity; eassumption.
Qed.

(** X1: the list of animations of a new session is in sorted order, and a
    name is in it exactly when the robot lists it and it is neither
    ["ANIMATION_TEST"] nor ["soundTestAnim"]; names listed several times
    stay as often as listed. *)
Theorem init_anim_names_sorted {R} `{Robot R} (robot : R) :
  StronglySorted str_le (anim_names (init robot))
  /\ Permutation (anim_names (init robot))
       (List.filter (fun name => negb (py_in name bad_anim_names))
          (anim_list robot))
  /\ (forall name : string,
        In name (anim_names (init robot)) <->
        In name (anim_list robot)
        /\ name <> "ANIMATION_TEST"%string /\ name <> "soundTestAnim"%string).
Proof.
  assert (Hperm : Permutation (anim_names (init robot))
            (List.filter (fun name => negb (py_in name bad_anim_names))
               (anim_list robot))).
  { cbn [init anim_names].
    apply filter_perm. apply py_sort_perm. }
  split; [|split].
  - cbn [init anim_names]. apply filter_strongly_sorted, py_sort_sorted.
  - exact Hperm.
  - intros name. rewrite (Permutation_in' (eq_refl name) Hperm).
    rewrite List.filter_In. unfold py_in, bad_anim_names. cbn [existsb].
    rewrite negb_true_iff, !orb_false_iff, !String.eqb_neq.
    intuition congruence.
Qed.

(** ** The queue under every request *)

Lemma key_release_queue {R} `{Robot R} key_code is_key_down (w : @World R) :
  action_queue (fst (final (key_release key_code is_key_down w))) =
  action_queue (fst w)
  \/ exists new_action,
       action_queue (fst (final (key_release key_code is_key_down w))) =
       ((if 10 <? Z.of_nat (length (action_queue (fst w)))
         then drop 1 (action_queue (fst w)) else action_queue (fst w))
        ++ [new_action])%list.
Proof.
  unfold key_release.
  destruct (negb is_key_down); [|left; reflexivity].
  destruct ((ord "9" >=? key_code) && (key_code >=? ord "0")).
  - destruct (key_code_to_anim_name_final key_code w) as [[name Hrun]|Hrun].
    + rewrite (bind_run _ _ _ _ _ Hrun). right. eexists.
      apply queue_action_queue.
    + rewrite (bind_raise _ _ _ _ _ Hrun). left. reflexivity.
  - destruct (key_code =? ord " "); [|left; reflexivity].
    rewrite (bind_run get_self _ w w (fst w) eq_refl). right. eexists.
    apply queue_action_queue.
Qed.

(** A request leaves the queue alone, removes its head, or enqueues one
    action with [queue_action]. *)
Lemma handle_queue_effect {R} `{Robot R} (req : Request) (w : @World R) :
  action_queue (fst (final (handle req w))) = action_queue (fst w)
  \/ (exists head, action_queue (fst w) =
                   head :: action_queue (fst (final (handle req w))))
  \/ exists new_action,
       action_queue (fst (final (handle req w))) =
       ((if 10 <? Z.of_nat (length (action_queue (fst w)))
         then drop 1 (action_queue (fst w)) else action_queue (fst w))
        ++ [new_action])%list.
Proof.
  destruct req; cbn [handle].
  - destruct (handle_key_runs key_code has_shift has_alt is_key_down w)
      as (w1 & Hrun & _ & Hq).
    rewrite Hrun, <- Hq.
    destruct (key_release_queue key_code is_key_down w1) as [Hk|Hk];
      [left | right; right]; exact Hk.
  - left. rewrite handle_mouse_session.
    destruct (is_mouse_look_enabled (fst w)); [|reflexivity].
    destruct (fst w). reflexivity.
  - left. destruct enabled.
    + rewrite set_mouse_look_enabled_on. cbn [final fst].
      destruct (fst w). reflexivity.
    + rewrite set_mouse_look_enabled_off. cbv zeta. cbn [final fst].
      destruct (fst w). reflexivity.
  - left. rewrite set_anim_eq.
    destruct (py_setitem (anim_index_for_key (fst w)) item_name_index
                selected_index); cbn [final fst]; [|reflexivity].
    destruct (fst w). reflexivity.
  - left. destruct w as [[] r]. reflexivity.
  - rewrite handle_updateVector_final.
    destruct (action_queue (fst w)) as [|[func args] rest] eqn:Hq.
    + left. rewrite update_empty by exact Hq. cbn [final]. exact Hq.
    + rewrite (update_nonempty w func args rest Hq). cbn [final fst].
      destruct (fst (call_action func args (snd w))).
      * right. left. exists (func, args).
        rewrite action_queue_set_action_queue. reflexivity.
      * left. exact Hq.
Qed.

(** X2: whatever requests a session has served since it was created, key
    events, drain steps and all others in any order, its queue holds at most
    11 actions. *)
Theorem served_queue_bounded {R} `{Robot R} (robot : R) (reqs : list Request) :
  (length (action_queue (fst (serve (init robot, robot) reqs))) <= 11)%nat.
Proof.
  induction reqs as [|req reqs IH] using rev_ind; [cbn; lia|].
  rewrite serve_snoc.
  destruct (handle_queue_effect req (serve (init robot, robot) reqs))
    as [Hq|[[head Hq]|[new_action Hq]]].
  - rewrite Hq. exact IH.
  - rewrite Hq in IH. cbn [length] in IH. lia.
  - rewrite Hq.
    destruct (10 <? Z.of_nat (length (action_queue
                (fst (serve (init robot, robot) reqs))))) eqn:Hfull;
      rewrite length_app; cbn [length].
    + rewrite length_drop. lia.
    + apply Z.ltb_ge in Hfull. lia.
Qed.

(** ** Draining the queue *)

Lemma updates_succ {R} `{Robot R} (n : nat) (w : @World R) :
  updates (S n) w = updates n (final (update w)).
Proof.
  unfold updates. induction n as [|n IH]; [reflexivity|].
  change (Nat.iter (S (S n)) ?f ?x) with (f (Nat.iter (S n) f x)).
  rewrite IH. reflexivity.
Qed.

(** X3: on a robot that completes every action at its first call, as many
    drain steps as there are queued actions empty the queue, and the robot
    is called with exactly the queued actions, oldest first. *)
Theorem updates_drain_in_order (queue : list Action) :
  forall (w : @World Scripted) (script : list bool),
    action_queue (fst w) = queue ->
    answers (snd w) = (replicate (length queue) true ++ script)%list ->
    action_queue (fst (updates (length queue) w)) = []
    /\ commands (snd (updates (length queue) w)) =
       (commands (snd w) ++ map (fun action => Called (fst action) (snd action)) queue)%list
    /\ answers (snd (updates (length queue) w)) = script.
Proof.
  induction queue as [|[func args] rest IH]; intros w script Hq Hans.
  - cbn [length updates Nat.iter map]. rewrite app_nil_r.
    repeat split; assumption.
  - cbn [length]. rewrite updates_succ.
    rewrite (update_nonempty w func args rest Hq). cbn [final].
    destruct w as [s rb]. cbn [fst snd] in *.
    change (call_action func args rb) with (scripted_call func args rb).
    unfold scripted_call. rewrite Hans. cbn [length replicate app fst snd].
    destruct (IH (set_action_queue rest s,
                  {| commands := commands rb ++ [Called func args];
                     answers := replicate (length rest) true ++ script;
                     head_degrees := head_degrees rb;
                     animations := animations rb |}) script)
      as (Hempty & Hcmds & Hrest).
    + apply action_queue_set_action_queue.
    + reflexivity.
    + split; [exact Hempty|]. split; [|exact Hrest].
      rewrite Hcmds. cbn [snd commands map fst].
      rewrite <- app_assoc. reflexivity.
Qed.

Lemma updates_drain_in_order_witness :
  let w := enqueue_all (demo_world [true; true; true; false])
             [(say_text, "one"); (play_animation, "anim_x"); (say_text, "two")] in
  action_queue (fst (updates 3 w)) = []
  /\ commands (snd (updates 3 w)) =
     [Called say_text "one"; Called play_animation "anim_x"; Called say_text "two"]
  /\ answers (snd (updates 3 w)) = [false].
Proof.
  exact (updates_drain_in_order
           [(say_text, "one"); (play_animation, "anim_x"); (say_text, "two")]
           (enqueue_all (demo_world [true; true; true; false])
              [(say_text, "one"); (play_animation, "anim_x"); (say_text, "two")])
           [false] eq_refl eq_refl).
Defined.

(** X4: while the robot answers that the head action is still running, no
    number of drain steps changes the session: the head stays first and the
    actions behind it are never reached.  [busy] describes the states of
    the robot in which the call of the head action reports false. *)
Theorem updates_blocked_by_head {R} `{Robot R} (busy : R -> Prop)
    (w : @World R) (func : RobotFunc) (args : string) (rest : list Action)
    (n : nat) :
  action_queue (fst w) = (func, args) :: rest ->
  (forall robot : R,
      busy robot ->
      fst (call_action func args robot) = false
      /\ busy (snd (call_action func args robot))) ->
  busy (snd w) ->
  fst (updates n w) = fst w /\ busy (snd (updates n w)).
Proof.
  intros Hq Hbusy. revert w Hq.
  induction n as [|n IH]; intros w Hq Hw; [split; [reflexivity | exact Hw]|].
  rewrite updates_succ.
  destruct (Hbusy (snd w) Hw) as [Hfalse Hnext].
  rewrite (update_nonempty w func args rest Hq), Hfalse. cbn [final].
  destruct (IH (fst w, snd (call_action func args (snd w))) Hq Hnext)
    as [Hs Hr].
  split; [exact Hs | exact Hr].
Qed.

Lemma updates_blocked_by_head_witness :
  let w := enqueue_all (demo_world [])
             [(say_text, "one"); (play_animation, "anim_x")] in
  fst (updates 5 w) = fst w /\ answers (snd (updates 5 w)) = [].
Proof.
  cbv zeta.
  apply (updates_blocked_by_head (fun robot => answers robot = [])
           (enqueue_all (demo_world [])
              [(say_text, "one"); (play_animation, "anim_x")])
           say_text "one" [(play_animation, "anim_x")] 5).
  - reflexivity.
  - intros robot Hbusy.
    change (call_action say_text "one" robot)
      with (scripted_call say_text "one" robot).
    unfold scripted_call. rewrite Hbusy. split; [reflexivity | exact Hbusy].
  - reflexivity.
Defined.

(** ** Bindings and text, written then used *)

Lemma py_getitem_insert {A} (l : list A) (i : Z) (v : A) :
  0 <= i < Z.of_nat (length l) ->
  py_getitem (<[Z.to_nat i := v]> l) i = Some v.
Proof.
  intros Hi. rewrite py_getitem_in_range by (rewrite length_insert; lia).
  apply list_lookup_insert_eq. lia.
Qed.

Lemma py_getitem_insert_ne {A} (l : list A) (i j : Z) (v : A) :
  0 <= i < Z.of_nat (length l) -> 0 <= j < Z.of_nat (length l) -> i <> j ->
  py_getitem (<[Z.to_nat i := v]> l) j = py_getitem l j.
Proof.
  intros Hi Hj Hij.
  rewrite !py_getitem_in_range by (rewrite ?length_insert; lia).
  apply list_lookup_insert_ne. lia.
Qed.

(** X5: on a served session, a drop-down selection of entry [j] for digit
    key [d] followed by a release of that key enqueues the animation that
    [anim_names] has at [j]; the queue gains exactly that one action. *)
Theorem select_then_release_plays {R} `{Robot R} (robot : R)
    (reqs : list Request) (digit j : Z) (name : string)
    (has_shift has_alt : bool) :
  let w := serve (init robot, robot) reqs in
  let queue := action_queue (fst w) in
  0 <= digit <= 9 ->
  py_getitem (anim_names (fst w)) j = Some name ->
  action_queue
    (fst (serve w [DropDownSelect digit j;
                   KeyEvent (ord "0" + digit) has_shift has_alt false])) =
  ((if 10 <? Z.of_nat (length queue) then drop 1 queue else queue)
   ++ [(play_animation, name)])%list.
Proof.
  cbv zeta. intros Hdigit Hname.
  pose proof (serve_table_length (init robot, robot) reqs) as Hlen.
  cbn [fst] in Hlen. rewrite init_table_length in Hlen.
  set (w := serve (init robot, robot) reqs) in *.
  cbn [serve fold_left handle].
  rewrite set_anim_eq, py_setitem_in_range by lia. cbn [final].
  destruct (handle_key_runs (ord "0" + digit) has_shift has_alt false
              (set_anim_index_for_key
                 (<[Z.to_nat digit := j]> (anim_index_for_key (fst w))) (fst w),
               snd w))
    as (w1 & Hrun & (Hnames & Htable & _) & Hq).
  cbn [fst] in Hnames, Htable, Hq.
  rewrite anim_index_for_key_set in Htable.
  rewrite Hrun, (key_release_digit digit j name w1).
  - rewrite queue_action_queue, Hq.
    destruct (fst w). reflexivity.
  - exact Hdigit.
  - rewrite Htable. apply py_getitem_insert. lia.
  - rewrite Hnames. destruct (fst w). exact Hname.
Qed.

Lemma select_then_release_plays_witness :
  action_queue
    (fst (serve (demo_world [])
            [DropDownSelect 7 1; KeyEvent (ord "7") false false false])) =
  [(play_animation, "anim_x")].
Proof.
  apply (select_then_release_plays (demo_robot []) [] 7 1 "anim_x" false false).
  - lia.
  - reflexivity.
Defined.

(** X6: on a served session, [set_anim] with a slot from 0 to 9 returns,
    binds that key to the given index and keeps the binding of every other
    digit key; the rest of the session and the robot are untouched. *)
Theorem set_anim_binds_one_key {R} `{Robot R} (robot : R)
    (reqs : list Request) (key_index other anim_index : Z) :
  let w := serve (init robot, robot) reqs in
  0 <= key_index <= 9 ->
  exists table,
    set_anim key_index anim_index w =
    Return tt (set_anim_index_for_key table (fst w), snd w)
    /\ length table = 10%nat
    /\ py_getitem table key_index = Some anim_index
    /\ (0 <= other <= 9 -> other <> key_index ->
        py_getitem table other = py_getitem (anim_index_for_key (fst w)) other).
Proof.
  cbv zeta. intros Hkey.
  pose proof (serve_table_length (init robot, robot) reqs) as Hlen.
  cbn [fst] in Hlen. rewrite init_table_length in Hlen.
  set (w := serve (init robot, robot) reqs) in *.
  exists (<[Z.to_nat key_index := anim_index]> (anim_index_for_key (fst w))).
  split; [|split; [|split]].
  - rewrite set_anim_eq, py_setitem_in_range by lia. reflexivity.
  - rewrite length_insert. exact Hlen.
  - apply py_getitem_insert. lia.
  - intros Hother Hne. apply py_getitem_insert_ne; lia.
Qed.

Lemma set_anim_binds_one_key_witness :
  exists table,
    set_anim 4 1 (demo_world []) =
    Return tt (set_anim_index_for_key table (fst (demo_world [])),
               snd (demo_world []))
    /\ length table = 10%nat
    /\ py_getitem table 4 = Some 1
    /\ (0 <= 9 <= 9 -> 9 <> 4 ->
        py_getitem table 9 =
        py_getitem (anim_index_for_key (fst (demo_world []))) 9).
Proof.
  apply (set_anim_binds_one_key (demo_robot []) [] 4 9 1). lia.
Defined.

(** X7: a text entered with [handle_sayText] is the text that the next
    release of the space key enqueues, whatever the text was before. *)
Theorem say_text_then_space_speaks {R} `{Robot R} (w : @World R)
    (text_entered : string) (has_shift has_alt : bool) :
  let queue := action_queue (fst w) in
  action_queue
    (fst (serve w [SayText text_entered;
                   KeyEvent (ord " ") has_shift has_alt false])) =
  ((if 10 <? Z.of_nat (length queue) then drop 1 queue else queue)
   ++ [(say_text, text_entered)])%list.
Proof.
  cbv zeta. cbn [serve fold_left handle].
  destruct (handle_key_runs (ord " ") has_shift has_alt false
              (final (handle_sayText text_entered w)))
    as (w1 & Hrun & (_ & _ & Htext & _) & Hq).
  rewrite Hrun, key_release_space, queue_action_queue, Hq, Htext.
  destruct w as [[] r]. reflexivity.
Qed.

(** ** Key events in closed form *)

Lemma update_drive_state_eq {R} `{Robot R} key_code is_key_down speed_changed
    (w : @World R) :
  update_drive_state key_code is_key_down speed_changed w =
  Return (is_drive_key key_code || speed_changed)
    (drive_keys key_code is_key_down (fst w), snd w).
Proof.
  destruct w as [s r].
  unfold update_drive_state, is_drive_key, drive_keys, bind, modify_self, ret.
  cbn [fst snd].
  destruct (key_code =? ord "W"); [reflexivity|].
  destruct (key_code =? ord "S"); [reflexivity|].
  destruct (key_code =? ord "A"); [reflexivity|].
  destruct (key_code =? ord "D"); [reflexivity|].
  destruct speed_changed; reflexivity.
Qed.

Lemma update_lift_state_eq {R} `{Robot R} key_code is_key_down speed_changed
    (w : @World R) :
  update_lift_state key_code is_key_down speed_changed w =
  Return (is_lift_key key_code || speed_changed)
    (lift_keys key_code is_key_down (fst w), snd w).
Proof.
  destruct w as [s r].
  unfold update_lift_state, is_lift_key, lift_keys, bind, modify_self, ret.
  cbn [fst snd].
  destruct (key_code =? ord "R"); [reflexivity|].
  destruct (key_code =? ord "F"); [reflexivity|].
  destruct speed_changed; reflexivity.
Qed.

Lemma update_head_state_eq {R} `{Robot R} key_code is_key_down speed_changed
    (w : @World R) :
  update_head_state key_code is_key_down speed_changed w =
  Return (is_head_key key_code || speed_changed)
    (head_keys key_code is_key_down (fst w), snd w).
Proof.
  destruct w as [s r].
  unfold update_head_state, is_head_key, head_keys, bind, modify_self, ret.
  cbn [fst snd].
  destruct (key_code =? ord "T"); [reflexivity|].
  destruct (key_code =? ord "G"); [reflexivity|].
  destruct speed_changed; reflexivity.
Qed.

(** [handle_key] is: take the modifiers and the held key, issue the motor
    calls that are due, then handle the release. *)
Lemma handle_key_closed_form {R} `{Robot R} key_code is_shift_down is_alt_down
    is_key_down (w : @World R) :
  let changed := modifiers_change is_shift_down is_alt_down (fst w) in
  let s' := after_key key_code is_shift_down is_alt_down is_key_down (fst w) in
  handle_key key_code is_shift_down is_alt_down is_key_down w =
  key_release key_code is_key_down
    (s',
     issue_motors (is_drive_key key_code || changed)
       (is_head_key key_code || changed) (is_lift_key key_code || changed)
       s' (snd w)).
Proof.
  cbv zeta. destruct w as [s r]. cbn [fst snd].
  unfold handle_key. do 4 run_step. cbn [fst snd].
  assert (Hchanged :
            negb (eqb (go_fast s)
                    (go_fast (set_go_slow is_alt_down (set_go_fast is_shift_down s))))
            || negb (eqb (go_slow s)
                       (go_slow (set_go_slow is_alt_down
                                   (set_go_fast is_shift_down s))))
            = modifiers_change is_shift_down is_alt_down s)
    by (destruct s; reflexivity).
  rewrite Hchanged.
  set (changed := modifiers_change is_shift_down is_alt_down s).
  rewrite (bind_run _ _ _ _ _ (update_drive_state_eq _ _ _ _)). cbn [fst snd].
  rewrite (bind_run _ _ _ _ _ (update_lift_state_eq _ _ _ _)). cbn [fst snd].
  rewrite (bind_run _ _ _ _ _ (update_head_state_eq _ _ _ _)). cbn [fst snd].
  fold (after_key key_code is_shift_down is_alt_down is_key_down s).
  set (s' := after_key key_code is_shift_down is_alt_down is_key_down s).
  unfold issue_motors.
  destruct (is_drive_key key_code || changed).
  - rewrite (bind_run _ _ _ _ _ (update_mouse_driving_eq _)). cbn [fst snd].
    destruct (is_head_key key_code || changed).
    + rewrite (bind_run _ _ _ _ _ (update_head_eq _)). cbn [fst snd andb].
      destruct (is_lift_key key_code || changed).
      * rewrite (bind_run _ _ _ _ _ (update_lift_eq _)). cbn [fst snd].
        destruct (is_mouse_look_enabled s'); reflexivity.
      * run_step. destruct (is_mouse_look_enabled s'); reflexivity.
    + run_step. cbn [andb].
      destruct (is_lift_key key_code || changed).
      * rewrite (bind_run _ _ _ _ _ (update_lift_eq _)). reflexivity.
      * run_step. reflexivity.
  - run_step.
    destruct (is_head_key key_code || changed).
    + rewrite (bind_run _ _ _ _ _ (update_head_eq _)). cbn [fst snd andb].
      destruct (is_lift_key key_code || changed).
      * rewrite (bind_run _ _ _ _ _ (update_lift_eq _)). cbn [fst snd].
        destruct (is_mouse_look_enabled s'); reflexivity.
      * run_step. destruct (is_mouse_look_enabled s'); reflexivity.
    + run_step. cbn [andb].
      destruct (is_lift_key key_code || changed).
      * rewrite (bind_run _ _ _ _ _ (update_lift_eq _)). reflexivity.
      * run_step. reflexivity.
Qed.

(** The release part changes the queue and nothing else. *)
Lemma key_release_final {R} `{Robot R} key_code is_key_down (w : @World R) :
  exists queue,
    final (key_release key_code is_key_down w) =
    (set_action_queue queue (fst w), snd w).
Proof.
  assert (Hsame : w = (set_action_queue (action_queue (fst w)) (fst w), snd w))
    by (destruct w as [[] r]; reflexivity).
  unfold key_release.
  destruct (negb is_key_down); [|eexists; exact Hsame].
  destruct ((ord "9" >=? key_code) && (key_code >=? ord "0")).
  - destruct (key_code_to_anim_name_final key_code w) as [[name Hrun]|Hrun].
    + rewrite (bind_run _ _ _ _ _ Hrun), queue_action_eq. eexists. reflexivity.
    + rewrite (bind_raise _ _ _ _ _ Hrun). eexists. exact Hsame.
  - destruct (key_code =? ord " "); [|eexists; exact Hsame].
    rewrite (bind_run get_self _ w w (fst w) eq_refl), queue_action_eq.
    eexists. reflexivity.
Qed.

Lemma issue_motors_commands (drive head lift : bool) (s : Session)
    (rb : Scripted) :
  commands (issue_motors drive head lift s rb) =
  (commands rb ++ motor_commands drive head lift s)%list
  /\ answers (issue_motors drive head lift s rb) = answers rb.
Proof.
  unfold issue_motors, motor_commands.
  destruct drive, (head && negb (is_mouse_look_enabled s)), lift;
    cbn; rewrite <- ?app_assoc, ?app_nil_r; split; reflexivity.
Qed.

(** X10: exchanging forward and back, when exactly one of the two is held,
    negates both wheel speeds: the robot backs along the path it would have
    driven forwards, the turn included. *)
Theorem reversing_negates_wheel_speeds (s : Session) :
  drive_forwards s <> drive_back s ->
  (fst (wheel_speeds (reversed s)) == - fst (wheel_speeds s))%Q
  /\ (snd (wheel_speeds (reversed s)) == - snd (wheel_speeds s))%Q.
Proof.
  destruct s as [fwd back left right lu ld hu hd fast slow look aim names
                   table queue text].
  cbn [drive_forwards drive_back]. intros Hdir.
  unfold reversed, wheel_speeds, pick_speed.
  cbn [set_drive_back set_drive_forwards drive_forwards drive_back turn_left
         turn_right mouse_dir go_fast go_slow].
  destruct fwd, back; try congruence;
    destruct fast, slow, left, right; cbn [b2q negb fst snd];
    repeat match goal with
           | |- context [Qltb ?a ?b] =>
               let v := eval vm_compute in (Qltb a b) in
               change (Qltb a b) with v
           end;
    cbv iota; split; ring.
Qed.

Lemma reversing_negates_wheel_speeds_witness :
  (fst (wheel_speeds (reversed (fst reversing_left)))
   == - fst (wheel_speeds (fst reversing_left)))%Q
  /\ (snd (wheel_speeds (reversed (fst reversing_left)))
      == - snd (wheel_speeds (fst reversing_left)))%Q.
Proof.
  apply (reversing_negates_wheel_speeds (fst reversing_left)).
  vm_compute. discriminate.
Defined.

Lemma drive_keys_other key_code is_key_down (s : Session) :
  is_drive_key key_code = false -> drive_keys key_code is_key_down s = s.
Proof.
  unfold is_drive_key, drive_keys. rewrite !orb_false_iff.
  intros [[[-> ->] ->] ->]. reflexivity.
Qed.

Lemma lift_keys_other key_code is_key_down (s : Session) :
  is_lift_key key_code = false -> lift_keys key_code is_key_down s = s.
Proof.
  unfold is_lift_key, lift_keys. rewrite !orb_false_iff.
  intros [-> ->]. reflexivity.
Qed.

Lemma head_keys_other key_code is_key_down (s : Session) :
  is_head_key key_code = false -> head_keys key_code is_key_down s = s.
Proof.
  unfold is_head_key, head_keys. rewrite !orb_false_iff.
  intros [-> ->]. reflexivity.
Qed.

(** X11: a key event for a key outside the eight control keys, with shift
    and alt as they were at the previous event, moves nothing: when the key
    goes down the whole call is a no-op, and when it goes up the call is
    only its release part (the queueing for digits and space). *)
Theorem handle_key_unrelated_key {R} `{Robot R} (w : @World R)
    (key_code : Z) (is_key_down : bool) :
  is_drive_key key_code = false ->
  is_lift_key key_code = false ->
  is_head_key key_code = false ->
  handle_key key_code (go_fast (fst w)) (go_slow (fst w)) true w = Return tt w
  /\ handle_key key_code (go_fast (fst w)) (go_slow (fst w)) is_key_down w =
     key_release key_code is_key_down w.
Proof.
  intros Hdrive Hlift Hhead.
  assert (Hrun : forall is_key_down,
             handle_key key_code (go_fast (fst w)) (go_slow (fst w)) is_key_down w =
             key_release key_code is_key_down w).
  { intros down. rewrite handle_key_closed_form. cbv zeta.
    unfold after_key.
    rewrite head_keys_other, lift_keys_other, drive_keys_other by assumption.
    rewrite Hdrive, Hlift, Hhead.
    replace (modifiers_change (go_fast (fst w)) (go_slow (fst w)) (fst w))
      with false
      by (unfold modifiers_change; destruct (go_fast (fst w)), (go_slow (fst w));
          reflexivity).
    replace (set_go_slow (go_slow (fst w)) (set_go_fast (go_fast (fst w)) (fst w)))
      with (fst w) by (destruct (fst w); reflexivity).
    unfold issue_motors. cbn [orb andb].
    destruct w as [s r]. reflexivity. }
  split; [|apply Hrun].
  rewrite Hrun. apply key_release_down.
Qed.

Lemma handle_key_unrelated_key_witness :
  handle_key (ord "Q") (go_fast (fst (demo_world [])))
    (go_slow (fst (demo_world []))) true (demo_world [])
  = Return tt (demo_world [])
  /\ handle_key (ord "1") (go_fast (fst (demo_world [])))
       (go_slow (fst (demo_world []))) false (demo_world [])
     = key_release (ord "1") false (demo_world []).
Proof.
  split.
  - exact (proj1 (handle_key_unrelated_key (demo_world []) (ord "Q") true
                    eq_refl eq_refl eq_refl)).
  - exact (proj2 (handle_key_unrelated_key (demo_world []) (ord "1") false
                    eq_refl eq_refl eq_refl)).
Defined.

(** X12: a key event makes its motor calls in a fixed order and from the
    session as the event leaves it: the wheel command when the key is one of
    W, S, A, D or a modifier changed, then the head command when the key is
    T or G or a modifier changed (never while mouse look is enabled), then
    the lift command when the key is R or F or a modifier changed.  It calls
    no action on the robot, and apart from the queue the session it leaves
    is the one with the modifiers and the held key of the event. *)
Theorem handle_key_motor_commands (w : @World Scripted) (key_code : Z)
    (is_shift_down is_alt_down is_key_down : bool) :
  let changed := modifiers_change is_shift_down is_alt_down (fst w) in
  let s' := after_key key_code is_shift_down is_alt_down is_key_down (fst w) in
  let w' := final (handle_key key_code is_shift_down is_alt_down is_key_down w) in
  (exists queue, fst w' = set_action_queue queue s')
  /\ commands (snd w') =
     (commands (snd w)
      ++ motor_commands (is_drive_key key_code || changed)
           (is_head_key key_code || changed) (is_lift_key key_code || changed)
           s')%list
  /\ answers (snd w') = answers (snd w).
Proof.
  cbv zeta. rewrite handle_key_closed_form. cbv zeta.
  destruct (key_release_final key_code is_key_down
              (after_key key_code is_shift_down is_alt_down is_key_down (fst w),
               issue_motors
                 (is_drive_key key_code
                  || modifiers_change is_shift_down is_alt_down (fst w))
                 (is_head_key key_code
                  || modifiers_change is_shift_down is_alt_down (fst w))
                 (is_lift_key key_code
                  || modifiers_change is_shift_down is_alt_down (fst w))
                 (after_key key_code is_shift_down is_alt_down is_key_down (fst w))
                 (snd w)))
    as [queue Hfinal].
  rewrite Hfinal. cbn [fst snd].
  split; [exists queue; reflexivity|].
  apply issue_motors_commands.
Qed.

Lemma after_key_twice key_code is_shift_down is_alt_down is_key_down
    (s : Session) :
  after_key key_code is_shift_down is_alt_down is_key_down
    (after_key key_code is_shift_down is_alt_down is_key_down s) =
  after_key key_code is_shift_down is_alt_down is_key_down s
  /\ modifiers_change is_shift_down is_alt_down
       (after_key key_code is_shift_down is_alt_down is_key_down s) = false.
Proof.
  destruct s.
  unfold after_key, modifiers_change, head_keys, lift_keys, drive_keys.
  cbn [set_go_fast set_go_slow].
  destruct (key_code =? ord "W"), (key_code =? ord "S"),
    (key_code =? ord "A"), (key_code =? ord "D"),
    (key_code =? ord "R"), (key_code =? ord "F"),
    (key_code =? ord "T"), (key_code =? ord "G");
    cbn; destruct is_shift_down, is_alt_down; split; reflexivity.
Qed.

(** X13: a key-down event that repeats the one before it (a key that is
    held down) leaves the session exactly as the first one left it, and
    issues again only the command of the key's own group: no command at all
    for a key outside the eight control keys. *)
Theorem handle_key_repeated_down {R} `{Robot R} (w : @World R) (key_code : Z)
    (is_shift_down is_alt_down : bool) :
  let w1 := final (handle_key key_code is_shift_down is_alt_down true w) in
  handle_key key_code is_shift_down is_alt_down true w1 =
  Return tt
    (fst w1,
     issue_motors (is_drive_key key_code) (is_head_key key_code)
       (is_lift_key key_code) (fst w1) (snd w1)).
Proof.
  cbv zeta. rewrite (handle_key_closed_form _ _ _ _ w). cbv zeta.
  rewrite key_release_down. cbn [final].
  rewrite handle_key_closed_form. cbv zeta. cbn [fst snd].
  destruct (after_key_twice key_code is_shift_down is_alt_down true (fst w))
    as [-> ->].
  rewrite !orb_false_r. apply key_release_down.
Qed.

Ltac eval_Qltb :=
  repeat match goal with
         | |- context [Qltb ?a ?b] =>
             let v := eval vm_compute in (Qltb a b) in
             change (Qltb a b) with v
         end.

(** ** Key events, released keys included *)

Lemma key_release_eq {R} `{Robot R} key_code is_key_down (w : @World R) :
  key_release key_code is_key_down w =
  if release_fails key_code is_key_down (fst w)
  then Raise IndexError w
  else Return tt (released key_code is_key_down (fst w), snd w).
Proof.
  destruct w as [s r]. cbn [fst snd].
  unfold key_release, release_fails, released.
  destruct is_key_down; cbn [negb andb]; [reflexivity|].
  destruct ((ord "9" >=? key_code) && (key_code >=? ord "0")); cbn [andb].
  - unfold key_code_to_anim_name. unfold bind at 1.
    unfold bind at 1. cbn [get_self fst]. unfold getitem.
    destruct (py_getitem (anim_index_for_key s) (key_code - ord "0"))
      as [anim_num|]; [|reflexivity].
    unfold bind at 1. cbn [ret].
    destruct (py_getitem (anim_names s) anim_num) as [anim_name|];
      [|reflexivity].
    unfold bind at 1. cbn [ret].
    rewrite queue_action_eq. reflexivity.
  - destruct (key_code =? ord " "); [|reflexivity].
    rewrite (bind_run get_self _ (s, r) (s, r) s eq_refl), queue_action_eq.
    reflexivity.
Qed.

Lemma handle_key_eq {R} `{Robot R} key_code is_shift_down is_alt_down
    is_key_down (w : @World R) :
  let changed := modifiers_change is_shift_down is_alt_down (fst w) in
  let s' := after_key key_code is_shift_down is_alt_down is_key_down (fst w) in
  let robot' :=
    issue_motors (is_drive_key key_code || changed)
      (is_head_key key_code || changed) (is_lift_key key_code || changed)
      s' (snd w) in
  handle_key key_code is_shift_down is_alt_down is_key_down w =
  if release_fails key_code is_key_down s'
  then Raise IndexError (s', robot')
  else Return tt (released key_code is_key_down s', robot').
Proof.
  cbv zeta. rewrite handle_key_closed_form. cbv zeta.
  rewrite key_release_eq. reflexivity.
Qed.

Lemma after_key_tables key_code is_shift_down is_alt_down is_key_down
    (s : Session) :
  anim_names (after_key key_code is_shift_down is_alt_down is_key_down s)
  = anim_names s
  /\ anim_index_for_key
       (after_key key_code is_shift_down is_alt_down is_key_down s)
     = anim_index_for_key s.
Proof.
  destruct s. unfold after_key, head_keys, lift_keys, drive_keys.
  cbn [set_go_fast set_go_slow].
  destruct (key_code =? ord "W"), (key_code =? ord "S"),
    (key_code =? ord "A"), (key_code =? ord "D"),
    (key_code =? ord "R"), (key_code =? ord "F"),
    (key_code =? ord "T"), (key_code =? ord "G"); split; reflexivity.
Qed.

Lemma release_fails_after_key key_code is_shift_down is_alt_down is_key_down
    (s : Session) :
  release_fails key_code is_key_down
    (after_key key_code is_shift_down is_alt_down is_key_down s)
  = release_fails key_code is_key_down s.
Proof.
  unfold release_fails.
  destruct (after_key_tables key_code is_shift_down is_alt_down is_key_down s)
    as [-> ->].
  reflexivity.
Qed.

(** X15: [handle_key] raises exactly for a released digit key whose binding
    is missing from the key table or names no entry of [anim_names]; the
    [IndexError] comes after modifiers, held key and motor commands have
    taken effect, and the queue is as before.  In every other case the call
    returns.  On a served session the key table always has the binding, so
    the only failure left is a binding outside [anim_names]. *)
Theorem handle_key_raises {R} `{Robot R} (robot : R) (reqs : list Request)
    (key_code : Z) (is_shift_down is_alt_down is_key_down : bool) :
  let w := serve (init robot, robot) reqs in
  let changed := modifiers_change is_shift_down is_alt_down (fst w) in
  let s' := after_key key_code is_shift_down is_alt_down is_key_down (fst w) in
  let robot' :=
    issue_motors (is_drive_key key_code || changed)
      (is_head_key key_code || changed) (is_lift_key key_code || changed)
      s' (snd w) in
  (release_fails key_code is_key_down (fst w) = true ->
   handle_key key_code is_shift_down is_alt_down is_key_down w =
   Raise IndexError (s', robot')
   /\ action_queue s' = action_queue (fst w))
  /\ (release_fails key_code is_key_down (fst w) = false ->
      handle_key key_code is_shift_down is_alt_down is_key_down w =
      Return tt (released key_code is_key_down s', robot'))
  /\ (release_fails key_code is_key_down (fst w) = true <->
      is_key_down = false /\ ord "0" <= key_code <= ord "9"
      /\ exists anim_num,
           py_getitem (anim_index_for_key (fst w)) (key_code - ord "0")
           = Some anim_num
           /\ py_getitem (anim_names (fst w)) anim_num = None).
Proof.
  cbv zeta.
  pose proof (serve_table_length (init robot, robot) reqs) as Hlen.
  cbn [fst] in Hlen. rewrite init_table_length in Hlen.
  set (w := serve (init robot, robot) reqs) in *.
  split; [|split].
  - intros Hfails. rewrite handle_key_eq. cbv zeta.
    rewrite release_fails_after_key, Hfails. split; [reflexivity|].
    destruct (handle_key_runs key_code is_shift_down is_alt_down is_key_down w)
      as (w1 & Hrun & _ & Hq).
    rewrite handle_key_closed_form in Hrun. cbv zeta in Hrun.
    rewrite !key_release_eq in Hrun. cbn [fst snd] in Hrun.
    rewrite release_fails_after_key, Hfails in Hrun.
    destruct (release_fails key_code is_key_down (fst w1));
      inversion Hrun; subst; exact Hq.
  - intros Hfails. rewrite handle_key_eq. cbv zeta.
    rewrite release_fails_after_key, Hfails. reflexivity.
  - unfold release_fails. split.
    + intros Hfails.
      apply andb_true_iff in Hfails as [Hfails Hbinding].
      apply andb_true_iff in Hfails as [Hup Hdigit].
      apply negb_true_iff in Hup.
      assert (Hrange : ord "0" <= key_code <= ord "9") by lia.
      split; [exact Hup|]. split; [exact Hrange|].
      change (ord "0") with 48 in *. change (ord "9") with 57 in *.
      rewrite py_getitem_in_range in * by lia.
      destruct (anim_index_for_key (fst w) !! Z.to_nat (key_code - 48))
        as [anim_num|] eqn:Hnum.
      * exists anim_num. split; [reflexivity|].
        destruct (py_getitem (anim_names (fst w)) anim_num);
          [discriminate | reflexivity].
      * apply lookup_ge_None in Hnum. lia.
    + intros (-> & Hrange & anim_num & Hnum & Hname).
      rewrite Hnum, Hname.
      replace ((ord "9" >=? key_code) && (key_code >=? ord "0")) with true
        by (symmetry; apply andb_true_iff; lia).
      reflexivity.
Qed.

Lemma handle_key_raises_witness :
  handle_key (ord "5") false false false (demo_world []) =
  Raise IndexError (demo_world [])
  /\ handle_key (ord "1") false false false (demo_world []) =
     Return tt
       (set_action_queue [(play_animation, "anim_x")] (fst (demo_world [])),
        snd (demo_world [])).
Proof.
  split.
  - exact (proj1 (proj1 (handle_key_raises (demo_robot []) [] (ord "5")
                           false false false) eq_refl)).
  - exact (proj1 (proj2 (handle_key_raises (demo_robot []) [] (ord "1")
                           false false false)) eq_refl).
Defined.

Lemma after_key_released key_code is_shift_down is_alt_down (s : Session) :
  after_key key_code is_shift_down is_alt_down false
    (after_key key_code is_shift_down is_alt_down true s) =
  after_key key_code is_shift_down is_alt_down false s.
Proof.
  destruct s. unfold after_key, head_keys, lift_keys, drive_keys.
  cbn [set_go_fast set_go_slow].
  destruct (key_code =? ord "W"), (key_code =? ord "S"),
    (key_code =? ord "A"), (key_code =? ord "D"),
    (key_code =? ord "R"), (key_code =? ord "F"),
    (key_code =? ord "T"), (key_code =? ord "G"); reflexivity.
Qed.

Lemma handle_key_session {R} `{Robot R} key_code is_shift_down is_alt_down
    is_key_down (w : @World R) :
  fst (final (handle_key key_code is_shift_down is_alt_down is_key_down w)) =
  released key_code is_key_down
    (after_key key_code is_shift_down is_alt_down is_key_down (fst w)).
Proof.
  rewrite handle_key_eq. cbv zeta.
  destruct (release_fails key_code is_key_down
              (after_key key_code is_shift_down is_alt_down is_key_down (fst w)))
    eqn:Hfails; [|reflexivity].
  cbn [final fst]. unfold release_fails in Hfails. unfold released.
  apply andb_true_iff in Hfails as [Hfails Hbinding].
  apply andb_true_iff in Hfails as [-> ->].
  destruct (py_getitem _ (key_code - ord "0")) as [anim_num|]; [|reflexivity].
  destruct (py_getitem _ anim_num); [discriminate | reflexivity].
Qed.

(** X16: pressing a key and then releasing it, with the same modifiers,
    leaves the session as the release alone would have: no held-key flag
    stays set behind, and the press contributes nothing to the queue. *)
Theorem press_then_release {R} `{Robot R} (w : @World R) (key_code : Z)
    (is_shift_down is_alt_down : bool) :
  fst (serve w [KeyEvent key_code is_shift_down is_alt_down true;
                KeyEvent key_code is_shift_down is_alt_down false]) =
  fst (serve w [KeyEvent key_code is_shift_down is_alt_down false]).
Proof.
  cbn [serve fold_left handle].
  rewrite !handle_key_session.
  unfold released at 2. cbn [negb].
  rewrite after_key_released. reflexivity.
Qed.

(** ** The drop-downs of the page *)

Lemma drop_down_loop_options (table : list Z) (selectorIndex bound : Z)
    (names : list string) :
  py_getitem table selectorIndex = Some bound ->
  forall (i : nat) (html_text : string),
    drop_down_loop table selectorIndex names i html_text =
    Some (html_text ++ options bound i names).
Proof.
  intros Hbound.
  induction names as [|anim_name rest IH]; intros i html_text.
  - cbn. rewrite append_empty_r. reflexivity.
  - cbn [drop_down_loop options]. rewrite Hbound. cbv zeta. rewrite IH.
    rewrite !append_assoc. reflexivity.
Qed.

Lemma get_anim_sel_drop_down_run {R} `{Robot R} (w : @World R)
    (selectorIndex bound : Z) :
  py_getitem (anim_index_for_key (fst w)) selectorIndex = Some bound ->
  get_anim_sel_drop_down selectorIndex w =
  Return
    (select_tag selectorIndex ++ options bound 0 (anim_names (fst w))
     ++ "</select>") w.
Proof.
  intros Hbound. destruct w as [s r]. cbn [fst] in *.
  unfold get_anim_sel_drop_down. run_step. cbn [fst].
  rewrite (drop_down_loop_options _ _ bound _ Hbound).
  unfold ret. rewrite append_assoc. reflexivity.
Qed.

(** X17: [get_anim_sel_drop_down] never changes the session.  When the slot
    has a binding it returns the select element with one option per
    animation, in the order of [anim_names], numbered from 0, the option
    whose number is the binding marked selected.  When the slot has no
    binding it raises [IndexError], unless [anim_names] is empty: then no
    option is built, the key table is never read, and the call returns the
    empty select element for any slot. *)
Theorem get_anim_sel_drop_down_html {R} `{Robot R} (w : @World R)
    (selectorIndex : Z) :
  (forall bound,
      py_getitem (anim_index_for_key (fst w)) selectorIndex = Some bound ->
      get_anim_sel_drop_down selectorIndex w =
      Return
        (select_tag selectorIndex ++ options bound 0 (anim_names (fst w))
         ++ "</select>") w)
  /\ (py_getitem (anim_index_for_key (fst w)) selectorIndex = None ->
      anim_names (fst w) <> [] ->
      get_anim_sel_drop_down selectorIndex w = Raise IndexError w)
  /\ (anim_names (fst w) = [] ->
      get_anim_sel_drop_down selectorIndex w =
      Return (select_tag selectorIndex ++ "</select>") w).
Proof.
  split; [intros bound; apply get_anim_sel_drop_down_run|].
  destruct w as [s r]. cbn [fst].
  unfold get_anim_sel_drop_down. split.
  - intros Hnone Hnames. run_step. cbn [fst].
    destruct (anim_names s) as [|anim_name rest]; [congruence|].
    cbn [drop_down_loop]. rewrite Hnone. reflexivity.
  - intros Hnames. run_step. cbn [fst]. rewrite Hnames. reflexivity.
Qed.

Lemma get_anim_sel_drop_down_html_witness :
  get_anim_sel_drop_down 1 (demo_world []) =
  Return
    (select_tag 1
     ++ "<option value=0>anim_turn_left_01</option>"
     ++ "<option value=1 selected=" ++ dquote ++ "selected" ++ dquote
     ++ ">anim_x</option>" ++ "</select>") (demo_world [])
  /\ get_anim_sel_drop_down 10 (demo_world []) = Raise IndexError (demo_world [])
  /\ get_anim_sel_drop_down 10 (init bare_robot, bare_robot) =
     Return (select_tag 10 ++ "</select>") (init bare_robot, bare_robot).
Proof.
  split; [|split].
  - exact (proj1 (get_anim_sel_drop_down_html (demo_world []) 1) 1 eq_refl).
  - apply (proj1 (proj2 (get_anim_sel_drop_down_html (demo_world []) 10)));
      [reflexivity | discriminate].
  - apply (proj2 (proj2 (get_anim_sel_drop_down_html
                           (init bare_robot, bare_robot) 10))).
    reflexivity.
Defined.

Lemma get_anim_sel_drop_down_bound {R} `{Robot R} (w : @World R) (key : Z) :
  0 <= key < Z.of_nat (length (anim_index_for_key (fst w))) ->
  get_anim_sel_drop_down key w = Return (drop_down_html (fst w) key) w.
Proof.
  intros Hkey. unfold drop_down_html.
  rewrite py_getitem_in_range by exact Hkey.
  destruct (anim_index_for_key (fst w) !! Z.to_nat key) as [bound|] eqn:Hb.
  - apply get_anim_sel_drop_down_run.
    rewrite py_getitem_in_range by exact Hkey. exact Hb.
  - apply lookup_ge_None in Hb. lia.
Qed.

Lemma drop_downs_loop_run {R} `{Robot R} (w : @World R) (range : list Z) :
  length (anim_index_for_key (fst w)) = 10%nat ->
  Forall (fun i => 0 <= i <= 9) range ->
  forall html_text : string,
    drop_downs_loop range html_text w =
    Return
      (html_text
       ++ foldr (fun i rest =>
                   drop_down_line (fst w) (if i <? 9 then i + 1 else 0) ++ rest)
            "" range) w.
Proof.
  intros Hlen Hrange.
  induction Hrange as [|i range Hi _ IH]; intros html_text.
  - cbn. rewrite append_empty_r. reflexivity.
  - cbn [drop_downs_loop foldr]. cbv zeta.
    assert (Hkey : 0 <= (if i <? 9 then i + 1 else 0)
                   < Z.of_nat (length (anim_index_for_key (fst w))))
      by (rewrite Hlen; destruct (i <? 9) eqn:Hlt; lia).
    rewrite (bind_run _ _ _ _ _ (get_anim_sel_drop_down_bound w _ Hkey)).
    rewrite IH. unfold drop_down_line. rewrite !append_assoc. reflexivity.
Qed.

(** X18: on a served session [get_anim_sel_drop_downs] returns, without
    changing anything, the ten drop-downs in the order of the keyboard row:
    keys 1 to 9, then key 0, each line made of the key, its drop-down and a
    line break. *)
Theorem get_anim_sel_drop_downs_page {R} `{Robot R} (robot : R)
    (reqs : list Request) :
  let w := serve (init robot, robot) reqs in
  get_anim_sel_drop_downs w =
  Return
    (foldr (fun key html_text => drop_down_line (fst w) key ++ html_text) ""
       [1; 2; 3; 4; 5; 6; 7; 8; 9; 0]) w.
Proof.
  cbv zeta.
  pose proof (serve_table_length (init robot, robot) reqs) as Hlen.
  cbn [fst] in Hlen. rewrite init_table_length in Hlen.
  unfold get_anim_sel_drop_downs.
  rewrite drop_downs_loop_run.
  - reflexivity.
  - exact Hlen.
  - repeat (apply Forall_cons_2; [lia|]). apply Forall_nil_2.
Qed.

(** X19: a drop-down selection shows on the page: on a served session,
    after [set_anim] bound digit key [key] to entry [anim_index], the
    drop-down of that key is built with exactly the option numbered
    [anim_index] marked selected. *)
Theorem selection_shows_in_drop_down {R} `{Robot R} (robot : R)
    (reqs : list Request) (key anim_index : Z) :
  let w := serve (init robot, robot) reqs in
  0 <= key <= 9 ->
  get_anim_sel_drop_down key (final (set_anim key anim_index w)) =
  Return
    (select_tag key ++ options anim_index 0 (anim_names (fst w)) ++ "</select>")
    (final (set_anim key anim_index w)).
Proof.
  cbv zeta. intros Hkey.
  pose proof (serve_table_length (init robot, robot) reqs) as Hlen.
  cbn [fst] in Hlen. rewrite init_table_length in Hlen.
  set (w := serve (init robot, robot) reqs) in *.
  rewrite set_anim_eq, py_setitem_in_range by lia. cbn [final].
  rewrite (get_anim_sel_drop_down_run _ key anim_index).
  - cbn [fst]. destruct (fst w). reflexivity.
  - cbn [fst]. rewrite anim_index_for_key_set. apply py_getitem_insert. lia.
Qed.

Lemma selection_shows_in_drop_down_witness :
  get_anim_sel_drop_down 3 (final (set_anim 3 0 (demo_world []))) =
  Return
    (select_tag 3
     ++ "<option value=0 selected=" ++ dquote ++ "selected" ++ dquote
     ++ ">anim_turn_left_01</option>" ++ "<option value=1>anim_x</option>"
     ++ "</select>")
    (final (set_anim 3 0 (demo_world []))).
Proof.
  change (demo_world []) with (serve (init (demo_robot []), demo_robot []) []).
  rewrite (selection_shows_in_drop_down (demo_robot []) [] 3 0) by lia.
  vm_compute. reflexivity.
Defined.

(** ** Turning on the spot *)

(** X20: with forward and back both held or both released the robot does
    not advance: the two wheel speeds are opposite, so it turns on the spot;
    with left and right cancelling as well and no mouse direction, both
    wheel speeds are 0. *)
Theorem wheel_speeds_without_drive (s : Session) :
  drive_forwards s = drive_back s ->
  (fst (wheel_speeds s) == - snd (wheel_speeds s))%Q
  /\ (turn_left s = turn_right s -> (mouse_dir s == 0)%Q ->
      (fst (wheel_speeds s) == 0)%Q /\ (snd (wheel_speeds s) == 0)%Q).
Proof.
  destruct s as [fwd back left right lu ld hu hd fast slow look aim names
                   table queue text].
  cbn [drive_forwards drive_back turn_left turn_right mouse_dir].
  intros Hdrive. unfold wheel_speeds, pick_speed.
  cbn [drive_forwards drive_back turn_left turn_right mouse_dir go_fast go_slow].
  destruct fwd, back; try discriminate;
    destruct fast, slow, left, right; cbn [b2q negb fst snd];
    eval_Qltb; cbv iota; (split; [ring|]);
    intros Hturn Haim; try discriminate; rewrite Haim; split; ring.
Qed.

Lemma wheel_speeds_without_drive_witness :
  let s := fst (serve (demo_world [])
                  [KeyEvent (ord "W") false false true;
                   KeyEvent (ord "S") false false true;
                   KeyEvent (ord "A") false false true]) in
  (fst (wheel_speeds s) == - snd (wheel_speeds s))%Q
  /\ (fst (wheel_speeds s) == -50)%Q.
Proof.
  cbv zeta. split.
  - exact (proj1 (wheel_speeds_without_drive
                    (fst (serve (demo_world [])
                            [KeyEvent (ord "W") false false true;
                             KeyEvent (ord "S") false false true;
                             KeyEvent (ord "A") false false true]))
                    eq_refl)).
  - vm_compute. reflexivity.
Defined.

(** ** A mouse position that is not a number *)

(** C10, at the failing input: for the mouse position NaN both comparisons
    of [remap_to_range] are false, so the value that [handle_mouse] stores
    in [mouse_dir] is NaN, which is neither at least -1.5 nor at most 1.5. *)
Theorem nan_mouse_position_not_clamped :
  Binary64.remap_to_range nan 0 1 (-1.5) 1.5 = Some nan
  /\ PrimFloat.leb (-1.5) nan = false
  /\ PrimFloat.leb nan 1.5 = false.
Proof. repeat split. Qed.
